(** * Relay timer sketch (Relay_Timer2.ino): timer state machine and
      multiplexed display, embedded from the Arduino source.

    Integers are [Z] with the C wrap-around written out: [uint8_t],
    [uint16_t], [uint32_t] are reduced modulo 2^8, 2^16, 2^32 and [int8_t]
    is the two's complement representative in [-128, 127].  The [static]
    variables of [loop()] and the level of OUTPUT_PIN form the machine
    state; one call of [loop()] is one step, fed with what [millis()],
    [RE.read()] and [SW.read()] return during that call. *)

From Stdlib Require Import Ascii String ZArith List Bool Lia.
Import ListNotations.
Local Open Scope Z_scope.

(** ** Machine integers *)

Module Mach.

Definition to_uint8 (z : Z) : Z := z mod 256.
Definition to_uint16 (z : Z) : Z := z mod 65536.
Definition to_uint32 (z : Z) : Z := z mod 4294967296.
(** Conversion to [int8_t] (two's complement, as avr-gcc does it). *)
Definition to_int8 (z : Z) : Z := (z + 128) mod 256 - 128.

End Mach.
Import Mach.

(** ** Constants of the sketch *)

Definition HIGH : bool := true.
Definition LOW : bool := false.

Definition OUTPUT_PIN : Z := 10.
(** [digitPin[0]] is the least significant digit, [digitPin[3]] the most
    significant one. *)
Definition digitPin : list Z := [4; 5; 6; 7].
(** Segments A B C D E F G DP; A0..A5 are pins 14..19 on the Uno. *)
Definition segmentPin : list Z := [12; 13; 14; 15; 16; 17; 18; 19].

Definition digits : list Z :=
  [0x3f; 0x06; 0x5b; 0x4f;
   0x66; 0x6d; 0x7d; 0x07;
   0x7f; 0x6f].

Definition alpha : list Z :=
  [0x77; 0x7c; 0x39; 0x5e; 0x79; 0x71;
   0x3d; 0x76; 0x06; 0x0e; 0x00; 0x38;
   0x00; 0x54; 0x3f; 0x73; 0x67; 0x60;
   0x6d; 0x78; 0x3e; 0x3e; 0x00; 0x00;
   0x6e; 0x5b].

Definition DECIMAL : Z := 0x80.

Definition DIGIT_ON : bool := LOW.
Definition DIGIT_OFF : bool := HIGH.
Definition SEGMENT_ON : bool := if Bool.eqb DIGIT_ON HIGH then LOW else HIGH.
Definition SEGMENT_OFF : bool := if Bool.eqb DIGIT_OFF HIGH then LOW else HIGH.

Inductive state_t : Type :=
  S_INIT | S_IDLE | S_START | S_RUNNING | S_PAUSE | S_END.

Definition TIME_MAX_MINUTES : Z := 99.
Definition TIME_INTERVAL : Z := 5.
Definition TIME_MAX_SP : Z := ((TIME_MAX_MINUTES * 60) + 59) / TIME_INTERVAL.

(** ** The input collaborators *)

(** Modelled from the spec: the header of MD_REncoder is missing; a poll of
    the encoder yields none, a clockwise step or a counter-clockwise step. *)
Inductive dir_t : Type := DIR_NONE | DIR_CW | DIR_CCW.

(** Modelled from the spec: the header of MD_KeySwitch is missing; a poll of
    the button yields none, a press or a long press. *)
Inductive keyResult_t : Type := KS_NULL | KS_PRESS | KS_LONGPRESS.

(** What one call of [loop()] reads from the outside: the raw millisecond
    counter at the handler's [millis()] call, and the results of
    [RE.read()] and [SW.read()]. *)
Record input : Type := mkInput {
  now : Z;
  re : dir_t;
  sw : keyResult_t
}.

(** [millis()] is an [unsigned long]. *)
Definition millis (i : input) : Z := to_uint32 (now i).

(** ** Outputs of one pass *)

(** The calls [loop()] makes that reach the hardware, in program order. *)
Inductive action : Type :=
| Call_displayTime (val decDigit : Z)
| Call_displayMessage (pMesg : string) (duration : Z)
| Call_digitalWrite (pin : Z) (level : bool).

Definition is_relay_write (a : action) : bool :=
  match a with
  | Call_digitalWrite pin _ => pin =? OUTPUT_PIN
  | _ => false
  end.

(** ** The statics of [loop()] and the relay pin *)

Record machine : Type := mkMachine {
  state : state_t;
  setPoint : Z;        (* uint16_t *)
  minutes : Z;         (* int8_t *)
  seconds : Z;         (* int8_t *)
  timeStart : Z;       (* uint32_t *)
  inMessage : bool;
  relay : bool         (* level latched on OUTPUT_PIN *)
}.

Definition set_state (s : state_t) (m : machine) : machine :=
  mkMachine s (setPoint m) (minutes m) (seconds m) (timeStart m) (inMessage m) (relay m).
Definition set_setPoint (v : Z) (m : machine) : machine :=
  mkMachine (state m) v (minutes m) (seconds m) (timeStart m) (inMessage m) (relay m).
Definition set_minutes (v : Z) (m : machine) : machine :=
  mkMachine (state m) (setPoint m) v (seconds m) (timeStart m) (inMessage m) (relay m).
Definition set_seconds (v : Z) (m : machine) : machine :=
  mkMachine (state m) (setPoint m) (minutes m) v (timeStart m) (inMessage m) (relay m).
Definition set_timeStart (v : Z) (m : machine) : machine :=
  mkMachine (state m) (setPoint m) (minutes m) (seconds m) v (inMessage m) (relay m).
Definition set_inMessage (v : bool) (m : machine) : machine :=
  mkMachine (state m) (setPoint m) (minutes m) (seconds m) (timeStart m) v (relay m).
Definition set_relay (v : bool) (m : machine) : machine :=
  mkMachine (state m) (setPoint m) (minutes m) (seconds m) (timeStart m) (inMessage m) v.

(** The statics as initialised, with the port latch of OUTPUT_PIN at its
    reset level when [setup()] makes the pin an output. *)
Definition power_on : machine :=
  mkMachine S_INIT 0 0 0 0 false LOW.

(** ** [loop()] *)

Definition case_S_INIT (m : machine) : machine :=
  let totalSeconds := to_uint16 (setPoint m * TIME_INTERVAL) in
  let m := set_seconds (to_int8 (totalSeconds mod 60)) m in
  let m := set_minutes (to_int8 (totalSeconds / 60)) m in
  let m := if minutes m >? TIME_MAX_MINUTES
           then set_minutes TIME_MAX_MINUTES m else m in
  set_state S_IDLE m.

Definition case_S_IDLE (i : input) (m : machine) : machine :=
  let x := re i in
  let m := match x with
           | DIR_CW =>
               if setPoint m <? TIME_MAX_SP
               then set_setPoint (to_uint16 (setPoint m + 1)) m else m
           | DIR_CCW =>
               if setPoint m >? 0
               then set_setPoint (to_uint16 (setPoint m - 1)) m else m
           | DIR_NONE => m
           end in
  let m := match x with DIR_NONE => m | _ => set_state S_INIT m end in
  match sw i with
  | KS_PRESS => if setPoint m =? 0 then m else set_state S_START m
  | _ => m
  end.

Definition case_S_START (i : input) (m : machine) : machine * list action :=
  let m := set_timeStart (millis i) m in
  let m := set_relay HIGH m in
  (set_state S_RUNNING m, [Call_digitalWrite OUTPUT_PIN HIGH]).

(** The test of the time counter: unsigned 32-bit difference. *)
Definition second_elapsed (i : input) (m : machine) : bool :=
  to_uint32 (millis i - timeStart m) >=? 1000.

Definition case_S_RUNNING (i : input) (m : machine) : machine :=
  let m :=
    if second_elapsed i m then
      let m := set_timeStart (to_uint32 (timeStart m + 1000)) m in
      if negb (seconds m =? 0) then
        set_seconds (to_int8 (seconds m - 1)) m
      else
        let m := set_seconds 59 m in
        if negb (minutes m =? 0) then
          set_minutes (to_int8 (minutes m - 1)) m
        else
          set_state S_END m
    else m in
  match sw i with
  | KS_PRESS => set_state S_PAUSE m
  | _ => m
  end.

Definition case_S_PAUSE (i : input) (m : machine) : machine * list action :=
  let m := set_inMessage true m in
  let m := match sw i with
           | KS_PRESS =>
               let m := set_timeStart (millis i) m in
               let m := set_inMessage false m in
               set_state S_RUNNING m
           | KS_LONGPRESS =>
               let m := set_inMessage false m in
               set_state S_END m
           | KS_NULL => m
           end in
  (m, [Call_displayMessage "pause" 50]).

Definition case_S_END (m : machine) : machine * list action :=
  let m := set_relay LOW m in
  (set_state S_INIT m,
   [Call_digitalWrite OUTPUT_PIN LOW; Call_displayMessage "end" 2000]).

(** One call of [loop()].  The [default:] branch of the switch has no
    counterpart: [state_t] has no seventh value. *)
Definition loop (m : machine) (i : input) : machine * list action :=
  let shown :=
    if negb (inMessage m)
    then [Call_displayTime (to_uint16 (minutes m * 100 + seconds m)) 2]
    else [] in
  let '(m', acts) :=
    match state m with
    | S_INIT => (case_S_INIT m, [])
    | S_IDLE => (case_S_IDLE i m, [])
    | S_START => case_S_START i m
    | S_RUNNING => (case_S_RUNNING i m, [])
    | S_PAUSE => case_S_PAUSE i m
    | S_END => case_S_END m
    end in
  (m', shown ++ acts).

Definition step (m : machine) (i : input) : machine := fst (loop m i).

(** Successive calls of [loop()]. *)
Fixpoint run (m : machine) (ins : list input) : machine :=
  match ins with
  | [] => m
  | i :: ins' => run (step m i) ins'
  end.

(** The actions of successive calls, concatenated. *)
Fixpoint run_actions (m : machine) (ins : list input) : list action :=
  match ins with
  | [] => []
  | i :: ins' => snd (loop m i) ++ run_actions (step m i) ins'
  end.

(** What an observer sees between calls: the state variable and the relay. *)
Fixpoint observe (m : machine) (ins : list input) : list (state_t * bool) :=
  match ins with
  | [] => []
  | i :: ins' => (state (step m i), relay (step m i)) :: observe (step m i) ins'
  end.

(** ** The display: pin-level events *)

(** What the rendering routines do to the hardware, in program order. *)
Inductive event : Type :=
| DigitalWrite (pin : Z) (level : bool)
| SPI_transfer (val : Z).

(** [updateSegments]: one write per segment pin, least significant bit
    first. *)
Fixpoint updateSegments_from (pins : list Z) (val : Z) : list event :=
  match pins with
  | [] => []
  | p :: pins' =>
      DigitalWrite p (if negb (Z.land val 1 =? 0) then SEGMENT_ON else SEGMENT_OFF)
      :: updateSegments_from pins' (Z.shiftr val 1)
  end.

Definition updateSegments (val : Z) : list event :=
  updateSegments_from segmentPin (to_uint8 val).

(** [spiSend] of the 74HC595 variant of the sketch, which differs from this
    one in the primitive that commits a segment pattern. *)
Definition LOAD_PIN : Z := 10.

Definition spiSend (val : Z) : list event :=
  [DigitalWrite LOAD_PIN LOW; SPI_transfer (to_uint8 val);
   DigitalWrite LOAD_PIN HIGH].

(** The inner loop that turns all the digits off. *)
Definition all_digits_off : list event :=
  map (fun p => DigitalWrite p DIGIT_OFF) digitPin.

(** [displayTime]; [commit] is [updateSegments] or [spiSend].  [n] counts
    the iterations left and [i] is the loop index. *)
Fixpoint displayTime_from (commit : Z -> list event) (n i : nat)
  (val decDigit : Z) : list event :=
  match n with
  | O => []
  | S n' =>
      let dig := to_uint8 (val mod 10) in
      let val' := val / 10 in
      all_digits_off ++
      commit (nth (Z.to_nat dig) digits 0 +
              (if decDigit =? Z.of_nat i then DECIMAL else 0)) ++
      DigitalWrite (nth i digitPin 0) DIGIT_ON
      :: displayTime_from commit n' (S i) val' decDigit
  end.

Definition displayTime (commit : Z -> list event) (val decDigit : Z) : list event :=
  displayTime_from commit (List.length digitPin) 0 (to_uint16 val) (to_uint8 decDigit).

Definition toupper (c : Z) : Z :=
  if (97 <=? c) && (c <=? 122) then c - 32 else c.

(** [pgm_read_byte(alpha + k)]: inside the table its entry; outside, the
    byte of program memory that happens to lie there, given by [flash]. *)
Definition pgm_read_alpha (flash : Z -> Z) (k : Z) : Z :=
  if (0 <=? k) && (k <? Z.of_nat (List.length alpha))
  then nth (Z.to_nat k) alpha 0
  else to_uint8 (flash k).

(** One pass of the [for] loop of [displayMessage] over the digits, from
    index [n-1] down to 0, reading the message at [p]. *)
Fixpoint displayMessage_frame (commit : Z -> list event) (flash : Z -> Z)
  (n : nat) (p : string) : list event :=
  match n with
  | O => []
  | S i =>
      let '(v, p') :=
        match p with
        | String c rest =>
            if Ascii.eqb c Ascii.zero then (0, p)
            else (pgm_read_alpha flash (toupper (Z.of_N (N_of_ascii c)) - 65), rest)
        | EmptyString => (0, p)
        end in
      all_digits_off ++
      commit v ++
      DigitalWrite (nth i digitPin 0) DIGIT_ON
      :: displayMessage_frame commit flash i p'
  end.

(** The [while] loop of [displayMessage]; [clock] holds the successive
    readings of [millis()] made by the loop test.  [None]: the readings ran
    out before the loop ended. *)
Fixpoint displayMessage_while (commit : Z -> list event) (flash : Z -> Z)
  (clock : list Z) (startTime : Z) (pMesg : string) (duration : Z)
  : option (list event) :=
  match clock with
  | [] => None
  | t :: clock' =>
      if to_uint32 (to_uint32 t - startTime) <? duration then
        match displayMessage_while commit flash clock' startTime pMesg duration with
        | Some tr =>
            Some (displayMessage_frame commit flash (List.length digitPin) pMesg ++ tr)
        | None => None
        end
      else Some []
  end.

Definition displayMessage (commit : Z -> list event) (flash : Z -> Z)
  (clock : list Z) (pMesg : string) (duration : Z) : option (list event) :=
  match clock with
  | [] => None
  | t0 :: clock' =>
      displayMessage_while commit flash clock' (to_uint32 t0) pMesg
                           (to_uint16 duration)
  end.

(** ** Pin levels *)

Definition pins : Type := Z -> bool.

Definition apply_event (s : pins) (e : event) : pins :=
  match e with
  | DigitalWrite p l => fun q => if q =? p then l else s q
  | SPI_transfer _ => s
  end.

Definition replay (s : pins) (tr : list event) : pins :=
  fold_left apply_event tr s.

(** Number of digit-select lines at DIGIT_ON. *)
Definition enabled_digits (s : pins) : nat :=
  List.length (filter (fun p => Bool.eqb (s p) DIGIT_ON) digitPin).

Definition drives_digit (e : event) : bool :=
  match e with
  | DigitalWrite p _ => existsb (Z.eqb p) digitPin
  | SPI_transfer _ => false
  end.

(** Along a trace: after every event at most one digit-select line is
    enabled, and every event that does not drive a digit-select line (a
    segment being loaded) happens while all of them are disabled. *)
Fixpoint multiplex_ok (s : pins) (tr : list event) : bool :=
  match tr with
  | [] => true
  | e :: tr' =>
      (enabled_digits (apply_event s e) <=? 1)%nat &&
      (drives_digit e || (enabled_digits s =? 0)%nat) &&
      multiplex_ok (apply_event s e) tr'
  end.

(** The unit of multiplexing: all digits off, the pattern [v] committed,
    digit [i] on. *)
Definition block (commit : Z -> list event) (iv : nat * Z) : list event :=
  all_digits_off ++ commit (snd iv) ++
  [DigitalWrite (nth (fst iv) digitPin 0) DIGIT_ON].

(** The segment pattern on the segment pins, bit k for [segmentPin[k]]. *)
Definition segments_lit (s : pins) : Z :=
  fold_right (fun p acc => (if Bool.eqb (s p) SEGMENT_ON then 1 else 0) + 2 * acc)
             0 segmentPin.

(** The patterns shown: at each enabling of a digit-select line, the line
    and the pattern on the segment pins at that moment. *)
Fixpoint lit_digits (s : pins) (tr : list event) : list (Z * Z) :=
  match tr with
  | [] => []
  | e :: tr' =>
      let s' := apply_event s e in
      match e with
      | DigitalWrite p l =>
          if existsb (Z.eqb p) digitPin && Bool.eqb l DIGIT_ON
          then (p, segments_lit s') :: lit_digits s' tr'
          else lit_digits s' tr'
      | SPI_transfer _ => lit_digits s' tr'
      end
  end.

Fixpoint last_shown (pin : Z) (shown : list (Z * Z)) : option Z :=
  match shown with
  | [] => None
  | (p, v) :: rest =>
      match last_shown pin rest with
      | Some v' => Some v'
      | None => if p =? pin then Some v else None
      end
  end.

(** The panel read from the left: [digitPin[3]] drives the most significant,
    leftmost digit (where [displayMessage] puts the first character),
    [digitPin[0]] the rightmost. *)
Definition left_to_right (shown : list (Z * Z)) : list (option Z) :=
  map (fun p => last_shown p shown) (rev digitPin).

Definition decimal_point (pattern : option Z) : bool :=
  match pattern with
  | Some v => Z.testbit v 7
  | None => false
  end.

Fixpoint index_of (v : Z) (table : list Z) (k : Z) : option Z :=
  match table with
  | [] => None
  | x :: rest => if x =? v then Some k else index_of v rest (k + 1)
  end.

(** The decimal digit whose entry of [digits] a pattern carries. *)
Definition digit_shown (pattern : option Z) : option Z :=
  match pattern with
  | Some v => index_of (Z.land v 127) digits 0
  | None => None
  end.

(** All pins low except the digit-select lines, which are at DIGIT_OFF: the
    levels once [setup()] has made its level writes on pins that were low,
    before its greeting (which ends with [digitPin[0]] enabled). *)
Definition pins_after_setup_writes : pins :=
  fun q => existsb (Z.eqb q) digitPin.

(** ** Specification vocabulary for the timer *)

(** States in which the spec wants the relay energised. *)
Definition timer_active (s : state_t) : bool :=
  match s with
  | S_START | S_RUNNING | S_PAUSE => true
  | S_INIT | S_IDLE | S_END => false
  end.

(** States the variable holds between calls while the relay is energised. *)
Definition relay_on_in (s : state_t) : bool :=
  match s with
  | S_RUNNING | S_PAUSE | S_END => true
  | S_INIT | S_IDLE | S_START => false
  end.

(** The invariant of the statics between calls of [loop()]. *)
Record inv (m : machine) : Prop := mkInv {
  inv_setPoint : 0 <= setPoint m <= TIME_MAX_SP;
  inv_minutes : 0 <= minutes m <= TIME_MAX_MINUTES;
  inv_seconds : 0 <= seconds m <= 59;
  inv_timeStart : 0 <= timeStart m < 4294967296;
  inv_relay : relay m = relay_on_in (state m)
}.

(** Number of falling edges in a sequence of observed relay levels. *)
Fixpoint falling_edges (prev : bool) (levels : list bool) : nat :=
  match levels with
  | [] => O
  | l :: rest =>
      ((if prev && negb l then 1 else 0) + falling_edges l rest)%nat
  end.

(** ** Scenarios *)

Definition quiet (t : Z) : input := mkInput t DIR_NONE KS_NULL.
Definition press (t : Z) : input := mkInput t DIR_NONE KS_PRESS.
Definition turn_cw (t : Z) : input := mkInput t DIR_CW KS_NULL.

(** Dial one unit (5 s) from power-on and press the button. *)
Definition arm_one_unit : list input :=
  [quiet 0; turn_cw 0; quiet 0; press 0].

(** From power-on: one unit dialled, armed at 0 ms, five ticks down to 0:00,
    and the button pressed in the pass of the sixth tick. *)
Definition press_on_final_tick : list input :=
  arm_one_unit ++
  [quiet 0; quiet 1000; quiet 2000; quiet 3000; quiet 4000; quiet 5000;
   press 6000].

(** The same readings [k] milliseconds later (modulo 2^32). *)
Definition later (k : Z) (i : input) : input :=
  mkInput (k + now i) (re i) (sw i).

Definition rebase (k : Z) (m : machine) : machine :=
  set_timeStart (to_uint32 (k + timeStart m)) m.

(** The passes after the button press, by their time after the arming pass:
    the arming pass itself, one pass per elapsed second up to 5000 ms, one
    pass just before the sixth second, the pass of the sixth second and the
    pass that follows it. *)
Definition after_arming : list input :=
  [quiet 0; quiet 1000; quiet 2000; quiet 3000; quiet 4000; quiet 5000;
   quiet 5999; quiet 6000; quiet 6000].

(** One unit dialled from power-on, armed, and left to run, with the arming
    pass at [t0] on the millisecond counter. *)
Definition one_unit_run (t0 : Z) : list input :=
  arm_one_unit ++ map (later t0) after_arming.

Definition seconds_left (m : machine) : Z := 60 * minutes m + seconds m.

(** One pass per elapsed second, [n] of them, after the instant [ts]. *)
Definition ticks (ts : Z) (n : nat) : list input :=
  map (fun k => quiet (ts + 1000 * Z.of_nat k)) (seq 1 n).

(** ** Further vocabulary: display *)

(** The patterns [displayTime] commits, with their loop indices. *)
Fixpoint displayTime_patterns (n i : nat) (val decDigit : Z) : list (nat * Z) :=
  match n with
  | O => []
  | S n' =>
      (i, nth (Z.to_nat (to_uint8 (val mod 10))) digits 0 +
          (if decDigit =? Z.of_nat i then DECIMAL else 0))
      :: displayTime_patterns n' (S i) (val / 10) decDigit
  end.

(** The patterns one frame of [displayMessage] commits, digit [n-1] first. *)
Fixpoint frame_patterns (flash : Z -> Z) (n : nat) (p : string) : list (nat * Z) :=
  match n with
  | O => []
  | S i =>
      match p with
      | String c rest =>
          if Ascii.eqb c Ascii.zero then (i, 0) :: frame_patterns flash i p
          else (i, pgm_read_alpha flash (toupper (Z.of_N (N_of_ascii c)) - 65))
               :: frame_patterns flash i rest
      | EmptyString => (i, 0) :: frame_patterns flash i p
      end
  end.

Definition is_letter (c : ascii) : bool :=
  let k := Z.of_N (N_of_ascii c) in
  ((65 <=? k) && (k <=? 90)) || ((97 <=? k) && (k <=? 122)).

(** The entry of [alpha] for a letter of either case. *)
Definition letter_pattern (c : ascii) : Z :=
  nth (Z.to_nat (toupper (Z.of_N (N_of_ascii c)) - 65)) alpha 0.

(** The level writes of [setup()] before the greeting: every digit-select
    line to DIGIT_OFF, then every segment line to SEGMENT_OFF.  The
    [pinMode] calls set directions only and write no level. *)
Definition setup_writes : list event :=
  map (fun p => DigitalWrite p DIGIT_OFF) digitPin ++
  map (fun p => DigitalWrite p SEGMENT_OFF) segmentPin.

(** [setup()]: the level writes, then [displayMessage("helo")] with its
    default duration. *)
Definition setup (flash : Z -> Z) (clock : list Z) : option (list event) :=
  match displayMessage updateSegments flash clock "helo" 2000 with
  | Some tr => Some (setup_writes ++ tr)
  | None => None
  end.

(** The integers below [n], for checks by enumeration. *)
Fixpoint bytes_upto (n : nat) : list Z :=
  match n with
  | O => []
  | S n' => Z.of_nat n' :: bytes_upto n'
  end.

(** ** Further vocabulary: timer *)

(** What the statics hold between calls besides their ranges: the message
    flag is up only while paused, and in S_IDLE the remaining time is the
    conversion of the set point. *)
Record consistent (m : machine) : Prop := mkConsistent {
  message_only_in_pause : inMessage m = true -> state m = S_PAUSE;
  idle_shows_setPoint :
    state m = S_IDLE ->
    minutes m = setPoint m * 5 / 60 /\ seconds m = (setPoint m * 5) mod 60
}.

(** The arrows of the switch in [loop()]. *)
Definition may_follow (a b : state_t) : bool :=
  match a, b with
  | S_INIT, S_IDLE
  | S_IDLE, S_IDLE | S_IDLE, S_INIT | S_IDLE, S_START
  | S_START, S_RUNNING
  | S_RUNNING, S_RUNNING | S_RUNNING, S_PAUSE | S_RUNNING, S_END
  | S_PAUSE, S_PAUSE | S_PAUSE, S_RUNNING | S_PAUSE, S_END
  | S_END, S_INIT => true
  | _, _ => false
  end.

(** The levels written to OUTPUT_PIN, in order. *)
Fixpoint relay_writes (acts : list action) : list bool :=
  match acts with
  | [] => []
  | Call_digitalWrite pin level :: rest =>
      if pin =? OUTPUT_PIN then level :: relay_writes rest
      else relay_writes rest
  | _ :: rest => relay_writes rest
  end.

(** Every level differs from the one before it, [prev] being the level
    before the first. *)
Fixpoint alternates (prev : bool) (levels : list bool) : bool :=
  match levels with
  | [] => true
  | l :: rest => negb (Bool.eqb l prev) && alternates l rest
  end.

(** ** The rendering contract, written out *)

(** The entry of [digits] for a decimal digit, with the decimal-point bit
    added or not. *)
Definition digit_pattern (d : Z) (point : bool) : Z :=
  nth (Z.to_nat d) digits 0 + (if point then DECIMAL else 0).

(** The eight segment lines written in the order of [segmentPin], line k
    from bit k of the pattern. *)
Definition segment_writes (v : Z) : list event :=
  map (fun k => DigitalWrite (nth k segmentPin 0)
                  (if Z.testbit v (Z.of_nat k) then SEGMENT_ON else SEGMENT_OFF))
      (seq 0 8).

(** One multiplexing step in the order the contract prescribes: every
    digit-select line written DIGIT_OFF, then the segment lines written
    with pattern [v], then digit-select line [i] alone written DIGIT_ON. *)
Definition blank_load_enable (iv : nat * Z) : list event :=
  map (fun p => DigitalWrite p DIGIT_OFF) digitPin ++
  segment_writes (snd iv) ++
  [DigitalWrite (nth (fst iv) digitPin 0) DIGIT_ON].

(** The patterns of the characters of a message, up to its end or to the
    first NUL. *)
Fixpoint message_patterns (flash : Z -> Z) (p : string) : list Z :=
  match p with
  | EmptyString => []
  | String c rest =>
      if Ascii.eqb c Ascii.zero then []
      else pgm_read_alpha flash (toupper (Z.of_N (N_of_ascii c)) - 65)
           :: message_patterns flash rest
  end.

(** One frame of a message: the first character on the leftmost digit
    ([digitPin[3]]), blanks after the last one. *)
Definition message_frame (flash : Z -> Z) (p : string) : list event :=
  let cp := message_patterns flash p in
  flat_map blank_load_enable
    [(3%nat, nth 0 cp 0); (2%nat, nth 1 cp 0); (1%nat, nth 2 cp 0);
     (0%nat, nth 3 cp 0)].

(** * Proofs *)

(** Reduce field accesses and updates only, leaving arithmetic alone. *)
Ltac fields :=
  cbn [state setPoint minutes seconds timeStart inMessage relay
       set_state set_setPoint set_minutes set_seconds set_timeStart
       set_inMessage set_relay fst snd negb now re sw].
Tactic Notation "fields" "in" hyp(H) :=
  cbn [state setPoint minutes seconds timeStart inMessage relay
       set_state set_setPoint set_minutes set_seconds set_timeStart
       set_inMessage set_relay fst snd negb now re sw] in H.

(** ** Machine integer facts *)

Lemma to_int8_small (z : Z) : -128 <= z <= 127 -> to_int8 z = z.
Proof.
  intros H. unfold to_int8. rewrite Z.mod_small by lia. lia.
Qed.

Lemma to_uint16_small (z : Z) : 0 <= z < 65536 -> to_uint16 z = z.
Proof. intros H. unfold to_uint16. now apply Z.mod_small. Qed.

Lemma to_uint32_small (z : Z) : 0 <= z < 4294967296 -> to_uint32 z = z.
Proof. intros H. unfold to_uint32. now apply Z.mod_small. Qed.

Lemma to_uint32_range (z : Z) : 0 <= to_uint32 z < 4294967296.
Proof. unfold to_uint32. apply Z.mod_pos_bound. lia. Qed.

Lemma to_uint32_idem (z : Z) : to_uint32 (to_uint32 z) = to_uint32 z.
Proof. unfold to_uint32. apply Z.mod_mod. lia. Qed.

Lemma to_uint32_add_l (a b : Z) : to_uint32 (to_uint32 a + b) = to_uint32 (a + b).
Proof. unfold to_uint32. apply Zplus_mod_idemp_l. Qed.

Lemma to_uint32_sub (a b : Z) :
  to_uint32 (to_uint32 a - to_uint32 b) = to_uint32 (a - b).
Proof. unfold to_uint32. symmetry. apply Zminus_mod. Qed.

(** Unsigned 32-bit subtraction recovers the true distance between two
    readings of a wrapping counter, whatever the position of the wrap. *)
Lemma to_uint32_elapsed (t d : Z) :
  0 <= d < 4294967296 ->
  to_uint32 (to_uint32 (t + d) - to_uint32 t) = d.
Proof.
  intros H. rewrite to_uint32_sub.
  replace (t + d - t) with d by lia. now apply to_uint32_small.
Qed.

Lemma to_uint32_sub_l (a b : Z) : to_uint32 (to_uint32 a - b) = to_uint32 (a - b).
Proof. unfold to_uint32. apply Zminus_mod_idemp_l. Qed.

Lemma to_uint32_sub_r (a b : Z) : to_uint32 (a - to_uint32 b) = to_uint32 (a - b).
Proof. unfold to_uint32. apply Zminus_mod_idemp_r. Qed.

Lemma to_uint32_add_r (a b : Z) : to_uint32 (a + to_uint32 b) = to_uint32 (a + b).
Proof. unfold to_uint32. apply Zplus_mod_idemp_r. Qed.

(** ** Basic facts about [run] *)

Lemma run_app (m : machine) (xs ys : list input) :
  run m (xs ++ ys) = run (run m xs) ys.
Proof.
  revert m. induction xs as [|x xs IH]; intros m; simpl; [reflexivity|].
  apply IH.
Qed.

Lemma run_snoc (m : machine) (xs : list input) (i : input) :
  run m (xs ++ [i]) = step (run m xs) i.
Proof. now rewrite run_app. Qed.

Lemma TIME_MAX_SP_value : TIME_MAX_SP = 1199.
Proof. reflexivity. Qed.

(** ** The invariant is kept by every pass *)

Lemma power_on_inv : inv power_on.
Proof. constructor; cbn; rewrite ?TIME_MAX_SP_value; unfold TIME_MAX_MINUTES; lia || reflexivity. Qed.

Lemma init_conversion (sp : Z) :
  0 <= sp <= TIME_MAX_SP ->
  let totalSeconds := to_uint16 (sp * TIME_INTERVAL) in
  totalSeconds = sp * 5 /\
  to_int8 (totalSeconds mod 60) = (sp * 5) mod 60 /\
  to_int8 (totalSeconds / 60) = sp * 5 / 60 /\
  0 <= (sp * 5) mod 60 <= 59 /\
  0 <= sp * 5 / 60 <= 99.
Proof.
  rewrite TIME_MAX_SP_value. intros H. cbv zeta. unfold TIME_INTERVAL.
  rewrite to_uint16_small by lia.
  assert (Hs : 0 <= (sp * 5) mod 60 < 60) by (apply Z.mod_pos_bound; lia).
  assert (Hm : 0 <= sp * 5 / 60 <= 99).
  { split; [apply Z.div_pos; lia|].
    apply Z.lt_succ_r. apply Z.div_lt_upper_bound; lia. }
  rewrite !to_int8_small by lia. repeat split; lia.
Qed.

Lemma case_S_INIT_spec (m : machine) :
  0 <= setPoint m <= TIME_MAX_SP ->
  case_S_INIT m =
  mkMachine S_IDLE (setPoint m) (setPoint m * 5 / 60) ((setPoint m * 5) mod 60)
            (timeStart m) (inMessage m) (relay m).
Proof.
  intros H. destruct (init_conversion (setPoint m) H) as (_ & Hs & Hm & _ & Hr).
  unfold case_S_INIT. cbn. rewrite Hs, Hm.
  destruct (Z.gtb_spec (setPoint m * 5 / 60) TIME_MAX_MINUTES) as [Hgt|_].
  - unfold TIME_MAX_MINUTES in Hgt. lia.
  - reflexivity.
Qed.

Lemma step_inv (m : machine) (i : input) : inv m -> inv (step m i).
Proof.
  intros [Hsp Hmin Hsec Hts Hrel].
  unfold step, loop. destruct m as [st sp mi se ts im rl]; cbn in *.
  destruct st; cbn.
  - (* S_INIT *)
    rewrite (case_S_INIT_spec (mkMachine S_INIT sp mi se ts im rl)) by exact Hsp.
    cbn. destruct (init_conversion sp Hsp) as (_ & _ & _ & Hs & Hm).
    constructor; cbn; unfold TIME_MAX_MINUTES in *; auto.
  - (* S_IDLE *)
    try rewrite TIME_MAX_SP_value in *.
    unfold case_S_IDLE; destruct i as [t [| |] k]; cbn;
      repeat match goal with
        | |- context [?a <? ?b] => destruct (Z.ltb_spec a b); cbn
        | |- context [?a >? ?b] => destruct (Z.gtb_spec a b); cbn
        | |- context [to_uint16 ?a] => rewrite (to_uint16_small a) by lia
        end;
      destruct k; cbn;
      repeat match goal with
        | |- context [?a =? ?b] => destruct (Z.eqb_spec a b); cbn
        end;
      constructor; cbn; rewrite ?TIME_MAX_SP_value; auto; lia.
  - (* S_START *)
    constructor; cbn; auto. apply to_uint32_range.
  - (* S_RUNNING *)
    unfold case_S_RUNNING, TIME_MAX_MINUTES in *.
    destruct (second_elapsed i _); cbn;
      repeat match goal with
        | |- context [?a =? ?b] => destruct (Z.eqb_spec a b); cbn
        | |- context [to_int8 ?a] => rewrite (to_int8_small a) by lia
        end;
      destruct (sw i); cbn; constructor; cbn; unfold TIME_MAX_MINUTES; auto;
      try apply to_uint32_range; try lia.
  - (* S_PAUSE *)
    destruct (sw i); cbn; constructor; cbn; auto. apply to_uint32_range.
  - (* S_END *)
    constructor; cbn; auto.
Qed.

Lemma run_inv (ins : list input) (m : machine) : inv m -> inv (run m ins).
Proof.
  revert m. induction ins as [|i ins IH]; intros m Hm; simpl; [exact Hm|].
  apply IH. now apply step_inv.
Qed.

Lemma reachable_inv (ins : list input) : inv (run power_on ins).
Proof. apply run_inv, power_on_inv. Qed.

(** ** Relay output and state variable *)

(** C1, as stated, fails: between two calls of [loop()] the state variable
    can hold S_START while the relay is still off (the S_IDLE pass only
    stores the new state; the pin is written by the next pass), and it can
    hold S_END while the relay is still on (here after the timer of one
    unit has run out and before the S_END pass has run). *)
Lemma relay_lags_state_variable :
  let armed := run power_on arm_one_unit in
  let ended :=
    run armed [quiet 0; quiet 1000; quiet 2000; quiet 3000; quiet 4000;
               quiet 5000; quiet 6000] in
  (state armed = S_START /\ relay armed = LOW /\
   relay armed <> timer_active (state armed)) /\
  (state ended = S_END /\ relay ended = HIGH /\
   relay ended <> timer_active (state ended)).
Proof. cbv zeta. vm_compute. repeat split; discriminate. Qed.

(** C1, amended: after every pass of [loop()] from power-on, the relay is on
    exactly when the state that pass handled was S_START, S_RUNNING or
    S_PAUSE; in terms of the state variable left behind, exactly when it
    holds S_RUNNING, S_PAUSE or S_END.  The pass writes OUTPUT_PIN only when
    it handles S_START (HIGH) or S_END (LOW), and each of these passes
    changes the state (to S_RUNNING, to S_INIT). *)
Theorem relay_follows_handled_state (ins : list input) (i : input) :
  let m := run power_on ins in
  let m' := step m i in
  relay m' = timer_active (state m) /\
  relay m' = relay_on_in (state m') /\
  filter is_relay_write (snd (loop m i)) =
    match state m with
    | S_START => [Call_digitalWrite OUTPUT_PIN HIGH]
    | S_END => [Call_digitalWrite OUTPUT_PIN LOW]
    | _ => []
    end /\
  match state m with
  | S_START => state m' = S_RUNNING
  | S_END => state m' = S_INIT
  | _ => True
  end.
Proof.
  cbv zeta.
  pose proof (reachable_inv ins) as Hm.
  pose proof (step_inv _ i Hm) as Hm'.
  split; [|split; [apply Hm'|]].
  - destruct Hm as [_ _ _ _ Hrel]. unfold step, loop.
    destruct (run power_on ins) as [st sp mi se ts im rl]; cbn in *.
    destruct st; cbn;
      unfold case_S_INIT, case_S_IDLE, case_S_RUNNING; cbn;
      destruct (re i), (sw i); cbn;
      repeat match goal with
        | |- context [if ?c then _ else _] => destruct c; cbn
        end; solve [exact Hrel | reflexivity].
  - unfold step, loop.
    destruct (run power_on ins) as [st sp mi se ts im rl]; cbn.
    destruct st, im; cbn; split; reflexivity || exact I.
Qed.

(** ** Conversion of the set point *)

(** C3: with the set point in [0, TIME_MAX_SP], the S_INIT pass stores
    seconds = (setPoint*5) mod 60 and minutes = (setPoint*5)/60, which the
    clamp leaves at most 99, and goes to S_IDLE whatever the inputs. *)
Theorem init_converts_setPoint (m : machine) (i : input) :
  state m = S_INIT ->
  0 <= setPoint m <= TIME_MAX_SP ->
  let m' := step m i in
  seconds m' = (setPoint m * 5) mod 60 /\
  minutes m' = Z.min (setPoint m * 5 / 60) 99 /\
  minutes m' = setPoint m * 5 / 60 /\
  minutes m' <= 99 /\
  state m' = S_IDLE /\
  setPoint m' = setPoint m.
Proof.
  intros Hst Hsp. cbv zeta. unfold step, loop. rewrite Hst.
  rewrite (case_S_INIT_spec m Hsp); cbn.
  destruct (init_conversion _ Hsp) as (_ & _ & _ & _ & Hr).
  repeat split; lia.
Qed.

Lemma init_converts_setPoint_witness :
  let m := mkMachine S_INIT 1199 0 0 0 false LOW in
  let m' := step m (quiet 0) in
  (state m = S_INIT /\ 0 <= setPoint m <= TIME_MAX_SP) /\
  seconds m' = (setPoint m * 5) mod 60 /\
  minutes m' = Z.min (setPoint m * 5 / 60) 99 /\
  minutes m' = setPoint m * 5 / 60 /\
  minutes m' <= 99 /\
  state m' = S_IDLE /\
  setPoint m' = setPoint m.
Proof.
  cbv zeta. split.
  - split; [reflexivity | rewrite TIME_MAX_SP_value; simpl; lia].
  - apply (init_converts_setPoint (mkMachine S_INIT 1199 0 0 0 false LOW) (quiet 0)).
    + reflexivity.
    + rewrite TIME_MAX_SP_value. simpl. lia.
Defined.

(** ** The set point under encoder events *)

(** C6: from power-on and for every sequence of inputs, the set point stays
    in [0, TIME_MAX_SP]; a pass changes it only when it handles S_IDLE: by
    +1 on a clockwise step below TIME_MAX_SP, by -1 on a counter-clockwise
    step above 0 (the 16-bit arithmetic never wraps), and not otherwise. *)
Theorem setPoint_only_moves_in_idle (ins : list input) (i : input) :
  let m := run power_on ins in
  let m' := step m i in
  0 <= setPoint m <= TIME_MAX_SP /\
  setPoint m' =
    match state m, re i with
    | S_IDLE, DIR_CW =>
        if setPoint m <? TIME_MAX_SP then setPoint m + 1 else setPoint m
    | S_IDLE, DIR_CCW =>
        if setPoint m >? 0 then setPoint m - 1 else setPoint m
    | _, _ => setPoint m
    end.
Proof.
  cbv zeta. pose proof (reachable_inv ins) as [Hsp _ _ _ _].
  split; [exact Hsp|].
  unfold step, loop.
  destruct (run power_on ins) as [st sp mi se ts im rl]; cbn in *.
  destruct st; cbn.
  - unfold case_S_INIT; cbn.
    match goal with |- context [if ?c then _ else _] => destruct c end;
      reflexivity.
  - unfold case_S_IDLE. destruct (re i); cbn;
      repeat match goal with
        | |- context [?a <? ?b] => destruct (Z.ltb_spec a b); cbn
        | |- context [?a >? ?b] => destruct (Z.gtb_spec a b); cbn
        | |- context [to_uint16 ?a] => rewrite (to_uint16_small a) by lia
        end;
      destruct (sw i); cbn;
      repeat match goal with
        | |- context [if ?c then _ else _] => destruct c; cbn
        end; reflexivity.
  - destruct (re i); reflexivity.
  - unfold case_S_RUNNING; cbn.
    repeat match goal with
      | |- context [if ?c then _ else _] => destruct c; cbn
      end; destruct (sw i), (re i); reflexivity.
  - destruct (sw i), (re i); reflexivity.
  - destruct (re i); reflexivity.
Qed.

(** ** The one-second tick *)

(** The test of the time counter sees the true number of milliseconds since
    [timeStart], wherever the 32-bit counter wraps in between. *)
Lemma second_elapsed_spec (m : machine) (i : input) (d : Z) :
  0 <= d < 4294967296 ->
  millis i = to_uint32 (timeStart m + d) ->
  second_elapsed i m = (d >=? 1000).
Proof.
  intros Hd Hnow. unfold second_elapsed. rewrite Hnow, to_uint32_sub_l.
  replace (timeStart m + d - timeStart m) with d by lia.
  now rewrite to_uint32_small.
Qed.

(** C2, as stated, fails at 0:00: one unit dialled from power-on, armed at
    0 ms and counted down by five ticks leaves S_RUNNING with 0:00 stored;
    the tick due at 6000 ms does not take a second off, it stores 0:59. *)
Lemma tick_at_zero_is_no_decrement :
  let m := run power_on
             (arm_one_unit ++
              [quiet 0; quiet 1000; quiet 2000; quiet 3000; quiet 4000;
               quiet 5000]) in
  let m' := step m (quiet 6000) in
  (state m = S_RUNNING /\ minutes m = 0 /\ seconds m = 0) /\
  second_elapsed (quiet 6000) m = true /\
  (minutes m' = 0 /\ seconds m' = 59) /\
  60 * minutes m' + seconds m' <> 60 * minutes m + seconds m - 1.
Proof. vm_compute. repeat split; reflexivity || discriminate. Qed.

(** C2, amended: in S_RUNNING, with d the milliseconds elapsed since the
    last decrement instant (read through the wrapping 32-bit counter), the
    pass fires exactly when d >= 1000.  When it does not fire, the remaining
    time and [timeStart] are kept.  When it fires, [timeStart] moves forward
    by exactly 1000 (modulo 2^32), so that the elapsed time seen from the
    new instant is d - 1000 and nothing beyond the counted second is
    dropped; a remaining time above 0:00 goes down by exactly one second,
    and at 0:00 nothing is taken off: 0:59 is stored. *)
Theorem second_tick_accumulates (m : machine) (i : input) (d : Z) :
  state m = S_RUNNING ->
  0 <= seconds m <= 59 ->
  0 <= minutes m <= 99 ->
  0 <= timeStart m < 4294967296 ->
  0 <= d < 4294967296 ->
  millis i = to_uint32 (timeStart m + d) ->
  let m' := step m i in
  second_elapsed i m = (d >=? 1000) /\
  (d < 1000 ->
   minutes m' = minutes m /\ seconds m' = seconds m /\
   timeStart m' = timeStart m) /\
  (1000 <= d ->
   timeStart m' = to_uint32 (timeStart m + 1000) /\
   to_uint32 (millis i - timeStart m') = d - 1000 /\
   (0 < 60 * minutes m + seconds m ->
    60 * minutes m' + seconds m' = 60 * minutes m + seconds m - 1 /\
    0 <= seconds m' <= 59 /\ 0 <= minutes m' <= 99) /\
   (60 * minutes m + seconds m = 0 ->
    minutes m' = 0 /\ seconds m' = 59)).
Proof.
  intros Hst Hsec Hmin Hts Hd Hnow. cbv zeta.
  pose proof (second_elapsed_spec m i d Hd Hnow) as Hel.
  split; [exact Hel|].
  unfold step, loop. rewrite Hst. fields. unfold case_S_RUNNING. rewrite Hel.
  split.
  - intros Hlt. destruct (Z.geb_spec d 1000) as [Hge|_]; [lia|].
    destruct (sw i); cbn; auto.
  - intros Hge. destruct (Z.geb_spec d 1000) as [_|Hlt]; [|lia].
    assert (Hcarry :
      to_uint32 (millis i - to_uint32 (timeStart m + 1000)) = d - 1000).
    { rewrite Hnow, to_uint32_sub.
      replace (timeStart m + d - (timeStart m + 1000)) with (d - 1000) by lia.
      apply to_uint32_small. lia. }
    destruct m as [st sp mi se ts im rl]. fields in Hsec. fields in Hmin.
    fields in Hcarry. fields.
    destruct (Z.eqb_spec se 0) as [Hse|Hse]; fields;
      [destruct (Z.eqb_spec mi 0) as [Hmi|Hmi]; fields|];
      rewrite ?to_int8_small by lia;
      destruct (sw i); fields; (split; [reflexivity|split; [exact Hcarry|]]);
      split; intros Hpos; repeat split; lia.
Qed.

(** A delayed tick read across the rollover of the millisecond counter:
    1300 ms after the instant 2^32 - 296, at 1:00 remaining. *)
Lemma second_tick_accumulates_witness :
  let m := mkMachine S_RUNNING 12 1 0 4294967000 false HIGH in
  let i := quiet 1004 in
  let m' := step m i in
  second_elapsed i m = true /\
  timeStart m' = 704 /\
  to_uint32 (millis i - timeStart m') = 300 /\
  minutes m' = 0 /\ seconds m' = 59.
Proof.
  cbv zeta.
  pose proof (second_tick_accumulates
                (mkMachine S_RUNNING 12 1 0 4294967000 false HIGH)
                (quiet 1004) 1300) as H.
  cbv zeta in H. simpl state in H. simpl seconds in H. simpl minutes in H.
  simpl timeStart in H.
  destruct H as (Hfire & _ & Hadv).
  - reflexivity.
  - lia.
  - lia.
  - lia.
  - lia.
  - reflexivity.
  - destruct (Hadv ltac:(lia)) as (Hts & Hcarry & Hdec & _).
    destruct (Hdec ltac:(lia)) as (Htot & Hs & Hm).
    split; [exact Hfire|]. split; [exact Hts|]. split; [exact Hcarry|].
    split; reflexivity.
Defined.

(** ** Running out: the tick at 0:00 *)

(** At 0:00 a tick without a button press sets seconds to 59 and leaves for
    S_END. *)
Lemma final_tick_ends (m : machine) (i : input) :
  state m = S_RUNNING -> minutes m = 0 -> seconds m = 0 ->
  second_elapsed i m = true -> sw i <> KS_PRESS ->
  step m i =
  mkMachine S_END (setPoint m) 0 59 (to_uint32 (timeStart m + 1000))
            (inMessage m) (relay m).
Proof.
  intros Hst Hmi Hse Hel Hsw. unfold step, loop. rewrite Hst. fields.
  unfold case_S_RUNNING. rewrite Hel. fields. rewrite Hse, Hmi. cbn.
  destruct (sw i); unfold set_state, set_seconds, set_timeStart; fields;
    rewrite ?Hmi; try reflexivity. congruence.
Qed.

Lemma loop_S_END (m : machine) (i : input) :
  state m = S_END ->
  loop m i =
  (mkMachine S_INIT (setPoint m) (minutes m) (seconds m) (timeStart m)
             (inMessage m) LOW,
   (if negb (inMessage m)
    then [Call_displayTime (to_uint16 (minutes m * 100 + seconds m)) 2]
    else []) ++
   [Call_digitalWrite OUTPUT_PIN LOW; Call_displayMessage "end" 2000]).
Proof. intros Hst. unfold loop. rewrite Hst. reflexivity. Qed.

Lemma step_S_INIT (m : machine) (i : input) :
  state m = S_INIT ->
  0 <= setPoint m <= TIME_MAX_SP ->
  step m i =
  mkMachine S_IDLE (setPoint m) (setPoint m * 5 / 60) ((setPoint m * 5) mod 60)
            (timeStart m) (inMessage m) (relay m).
Proof.
  intros Hst Hsp. unfold step, loop. rewrite Hst. fields.
  now apply case_S_INIT_spec.
Qed.

(** C5 fails on this input: the tick at 0:00 stores S_END, and the pause
    check of the same pass overwrites it with S_PAUSE; the timer is left
    paused at 0:59 with the relay on, and resuming it counts 0:59 down. *)
Lemma final_tick_with_press_pauses :
  let before := run power_on (removelast press_on_final_tick) in
  let after := run power_on press_on_final_tick in
  (state before = S_RUNNING /\ minutes before = 0 /\ seconds before = 0) /\
  second_elapsed (press 6000) before = true /\
  state after = S_PAUSE /\ minutes after = 0 /\ seconds after = 59 /\
  relay after = HIGH /\
  let resumed := run after [press 6050; quiet 7050] in
  state resumed = S_RUNNING /\ minutes resumed = 0 /\ seconds resumed = 58.
Proof. vm_compute. repeat split; reflexivity. Qed.

(** C10: when the tick fires in S_RUNNING at 0:00, the pass stores 0:59.
    Unless the button is pressed in that pass the state becomes S_END; the
    S_END pass still shows and keeps 0:59, switches the relay off and goes
    to S_INIT, and only the S_INIT pass after it stores the conversion of
    the set point again. *)
Theorem ended_with_59_seconds (m : machine) (i i2 i3 : input) :
  state m = S_RUNNING ->
  minutes m = 0 -> seconds m = 0 ->
  inMessage m = false ->
  0 <= setPoint m <= TIME_MAX_SP ->
  second_elapsed i m = true ->
  let m1 := step m i in
  let m2 := step m1 i2 in
  let m3 := step m2 i3 in
  (minutes m1 = 0 /\ seconds m1 = 59) /\
  (sw i <> KS_PRESS ->
   state m1 = S_END /\
   snd (loop m1 i2) =
     [Call_displayTime 59 2; Call_digitalWrite OUTPUT_PIN LOW;
      Call_displayMessage "end" 2000] /\
   state m2 = S_INIT /\ minutes m2 = 0 /\ seconds m2 = 59 /\
   state m3 = S_IDLE /\
   minutes m3 = setPoint m * 5 / 60 /\
   seconds m3 = (setPoint m * 5) mod 60).
Proof.
  intros Hst Hmi Hse Him Hsp Hel. cbv zeta. split.
  - unfold step, loop. rewrite Hst. fields. unfold case_S_RUNNING.
    rewrite Hel. fields. rewrite Hse, Hmi. cbn.
    destruct (sw i); fields; rewrite ?Hmi; split; reflexivity.
  - intros Hsw. rewrite (final_tick_ends m i Hst Hmi Hse Hel Hsw).
    rewrite Him.
    set (m1 := mkMachine S_END _ _ _ _ _ _).
    assert (H2 : loop m1 i2 =
                 (mkMachine S_INIT (setPoint m) 0 59 (timeStart m1) false LOW,
                  [Call_displayTime 59 2; Call_digitalWrite OUTPUT_PIN LOW;
                   Call_displayMessage "end" 2000]))
      by (apply loop_S_END; reflexivity).
    assert (Hs2 : step m1 i2 = fst (loop m1 i2)) by reflexivity.
    rewrite H2 in Hs2. rewrite Hs2, H2. fields.
    rewrite step_S_INIT by (reflexivity || exact Hsp). fields.
    repeat split; reflexivity.
Qed.

Lemma ended_with_59_seconds_witness :
  let m := mkMachine S_RUNNING 1 0 0 5000 false HIGH in
  let m1 := step m (quiet 6000) in
  let m2 := step m1 (quiet 6001) in
  let m3 := step m2 (quiet 8001) in
  (state m1 = S_END /\ minutes m1 = 0 /\ seconds m1 = 59) /\
  (state m2 = S_INIT /\ minutes m2 = 0 /\ seconds m2 = 59) /\
  (state m3 = S_IDLE /\ minutes m3 = 0 /\ seconds m3 = 5).
Proof.
  cbv zeta.
  pose proof (ended_with_59_seconds
                (mkMachine S_RUNNING 1 0 0 5000 false HIGH)
                (quiet 6000) (quiet 6001) (quiet 8001)) as H.
  cbv zeta in H.
  destruct H as ((Hm1 & Hs1) & Hrest).
  - reflexivity.
  - reflexivity.
  - reflexivity.
  - reflexivity.
  - rewrite TIME_MAX_SP_value. simpl. lia.
  - reflexivity.
  - destruct Hrest as (H1 & _ & H2 & H3 & H4 & H5 & H6 & H7).
    + discriminate.
    + repeat split; assumption.
Defined.

(** ** Pause and resume *)

(** C7: a press in S_RUNNING pauses; the pausing pass changes the remaining
    time only if a tick was due in it.  No S_PAUSE pass changes minutes or
    seconds.  The resuming press changes, besides the state and the message
    flag, only [timeStart], which becomes the current [millis()]; and the
    next pass, less than a second later, finds the remaining time as it was
    when the timer was paused. *)
Theorem pause_resume_keeps_remaining (m : machine) (i1 i2 i3 : input) :
  state m = S_RUNNING ->
  sw i1 = KS_PRESS ->
  sw i2 = KS_PRESS ->
  to_uint32 (millis i3 - millis i2) < 1000 ->
  let m1 := step m i1 in
  let m2 := step m1 i2 in
  let m3 := step m2 i3 in
  state m1 = S_PAUSE /\
  (second_elapsed i1 m = false ->
   minutes m1 = minutes m /\ seconds m1 = seconds m) /\
  m2 = mkMachine S_RUNNING (setPoint m1) (minutes m1) (seconds m1)
                 (millis i2) false (relay m1) /\
  (minutes m3 = minutes m1 /\ seconds m3 = seconds m1) /\
  (forall (p : machine) (ip : input),
     state p = S_PAUSE ->
     minutes (step p ip) = minutes p /\ seconds (step p ip) = seconds p).
Proof.
  intros Hst Hsw1 Hsw2 Hlt. cbv zeta.
  assert (Hm1 : state (step m i1) = S_PAUSE).
  { unfold step, loop. rewrite Hst. fields. unfold case_S_RUNNING.
    rewrite Hsw1. reflexivity. }
  assert (Hm2 : step (step m i1) i2 =
                mkMachine S_RUNNING (setPoint (step m i1)) (minutes (step m i1))
                          (seconds (step m i1)) (millis i2) false
                          (relay (step m i1))).
  { unfold step at 1. unfold loop. rewrite Hm1. fields.
    unfold case_S_PAUSE. rewrite Hsw2. reflexivity. }
  split; [exact Hm1|]. split; [|split; [exact Hm2|split]].
  - intros Hno. unfold step, loop. rewrite Hst. fields.
    unfold case_S_RUNNING. rewrite Hno, Hsw1. split; reflexivity.
  - rewrite Hm2. clear Hm1 Hm2. generalize (step m i1) as m1. intros m1.
    unfold step, loop. fields.
    unfold case_S_RUNNING, second_elapsed. fields.
    destruct (Z.geb_spec (to_uint32 (millis i3 - millis i2)) 1000) as [Hge|_];
      [lia|].
    destruct (sw i3); split; reflexivity.
  - intros p ip Hp. unfold step, loop. rewrite Hp. fields.
    unfold case_S_PAUSE. destruct (sw ip); split; reflexivity.
Qed.

Lemma pause_resume_keeps_remaining_witness :
  let m := mkMachine S_RUNNING 12 0 42 10000 false HIGH in
  let m1 := step m (press 10400) in
  let m2 := step m1 (press 10450) in
  let m3 := step m2 (quiet 10450) in
  state m1 = S_PAUSE /\
  m2 = mkMachine S_RUNNING 12 0 42 10450 false HIGH /\
  minutes m3 = 0 /\ seconds m3 = 42.
Proof.
  cbv zeta.
  pose proof (pause_resume_keeps_remaining
                (mkMachine S_RUNNING 12 0 42 10000 false HIGH)
                (press 10400) (press 10450) (quiet 10450)) as H.
  cbv zeta in H.
  destruct H as (H1 & _ & H2 & (H3 & H4) & _).
  - reflexivity.
  - reflexivity.
  - reflexivity.
  - vm_compute. reflexivity.
  - split; [exact H1|]. split; [exact H2|]. split; [exact H3 | exact H4].
Defined.

(** ** Independence of the position of the millisecond counter *)

Lemma second_elapsed_rebase (k : Z) (m : machine) (i : input) :
  second_elapsed (later k i) (rebase k m) = second_elapsed i m.
Proof.
  unfold second_elapsed, millis, later, rebase. fields.
  rewrite to_uint32_sub, to_uint32_sub_l. f_equal. f_equal. lia.
Qed.

Lemma loop_rebase (k : Z) (m : machine) (i : input) :
  loop (rebase k m) (later k i) = (rebase k (fst (loop m i)), snd (loop m i)).
Proof.
  destruct (state m) eqn:Hst.
  5: { (* S_PAUSE *)
    destruct m as [st sp mi se ts im rl], i as [t r s]. fields in Hst. subst st.
    cbv [loop case_S_PAUSE rebase later millis]. fields.
    destruct s; unfold set_state, set_inMessage, set_timeStart; fields;
      rewrite ?to_uint32_add_r; reflexivity. }
  4: { (* S_RUNNING *)
    pose proof (second_elapsed_rebase k m i) as Hel.
    assert (Hadv : to_uint32 (to_uint32 (k + timeStart m) + 1000) =
                   to_uint32 (k + to_uint32 (timeStart m + 1000))).
    { rewrite to_uint32_add_l, to_uint32_add_r. f_equal. lia. }
    destruct m as [st sp mi se ts im rl], i as [t r s]. fields in Hst. subst st.
    unfold loop. change (state (rebase k _)) with S_RUNNING. cbv iota.
    unfold case_S_RUNNING. rewrite Hel.
    destruct (second_elapsed _ _);
      unfold rebase, later, set_state, set_seconds, set_minutes, set_timeStart;
      fields; fields in Hadv; rewrite ?Hadv;
      repeat match goal with
        | |- context [if ?c then _ else _] => destruct c; fields
        end; destruct s; reflexivity. }
  3: { (* S_START *)
    destruct m as [st sp mi se ts im rl], i as [t r s]. fields in Hst. subst st.
    cbv [loop case_S_START rebase later millis].
    unfold set_state, set_relay, set_timeStart. fields.
    now rewrite to_uint32_add_r. }
  all: destruct m as [st sp mi se ts im rl], i as [t r s]; fields in Hst;
    subst st;
    cbv [loop case_S_INIT case_S_IDLE case_S_END rebase later]; fields.
  - (* S_INIT *)
    destruct (_ >? TIME_MAX_MINUTES); reflexivity.
  - (* S_IDLE *)
    destruct r; try destruct (sp <? TIME_MAX_SP); try destruct (sp >? 0);
      unfold set_state, set_setPoint, set_timeStart; fields;
      destruct s; try reflexivity;
      match goal with
      | |- context [if ?c then _ else _] => destruct c; reflexivity
      end.
  - (* S_END *)
    reflexivity.
Qed.

Lemma step_rebase (k : Z) (m : machine) (i : input) :
  step (rebase k m) (later k i) = rebase k (step m i).
Proof. unfold step. now rewrite loop_rebase. Qed.

(** Moving every reading and the stored instant by the same amount changes
    nothing an observer can see: neither states, nor relay levels, nor the
    calls made; in particular the rollover of the counter is invisible. *)
Lemma observe_rebase (k : Z) (ins : list input) (m : machine) :
  observe (rebase k m) (map (later k) ins) = observe m ins.
Proof.
  revert m. induction ins as [|i ins IH]; intros m; simpl; [reflexivity|].
  rewrite step_rebase, IH. reflexivity.
Qed.

Lemma run_actions_rebase (k : Z) (ins : list input) (m : machine) :
  run_actions (rebase k m) (map (later k) ins) = run_actions m ins.
Proof.
  revert m. induction ins as [|i ins IH]; intros m; simpl; [reflexivity|].
  rewrite step_rebase, IH, loop_rebase. reflexivity.
Qed.

Lemma observe_app (m : machine) (xs ys : list input) :
  observe m (xs ++ ys) = observe m xs ++ observe (run m xs) ys.
Proof.
  revert m. induction xs as [|x xs IH]; intros m; simpl; [reflexivity|].
  now rewrite IH.
Qed.

Lemma run_actions_app (m : machine) (xs ys : list input) :
  run_actions m (xs ++ ys) = run_actions m xs ++ run_actions (run m xs) ys.
Proof.
  revert m. induction xs as [|x xs IH]; intros m; simpl; [reflexivity|].
  now rewrite IH, app_assoc.
Qed.

(** ** The run of one unit (5 seconds) *)

(** C4, as stated, fails: with the set point at 1 and the timer armed at
    0 ms, the five ticks up to 5000 ms only bring the remaining time to
    0:00; the state is still S_RUNNING with the relay on at 5000 ms and at
    5999 ms, and S_END has not been seen. *)
Lemma not_ended_after_5000ms :
  let upto t :=
    arm_one_unit ++
    [quiet 0; quiet 1000; quiet 2000; quiet 3000; quiet 4000; quiet t] in
  let at5000 := run power_on (upto 5000) in
  let at5999 := run at5000 [quiet 5999] in
  (state at5000 = S_RUNNING /\ relay at5000 = HIGH /\
   minutes at5000 = 0 /\ seconds at5000 = 0) /\
  (state at5999 = S_RUNNING /\ relay at5999 = HIGH) /\
  ~ In S_END (map fst (observe power_on (upto 5000 ++ [quiet 5999]))).
Proof.
  cbv zeta. split; [|split].
  - vm_compute. repeat split; reflexivity.
  - vm_compute. repeat split; reflexivity.
  - vm_compute. intros H.
    repeat (destruct H as [H|H]; [discriminate H|]). exact H.
Qed.

Lemma observe_cons (m : machine) (i : input) (ins : list input) :
  observe m (i :: ins) =
  (state (step m i), relay (step m i)) :: observe (step m i) ins.
Proof. reflexivity. Qed.

Lemma run_actions_cons (m : machine) (i : input) (ins : list input) :
  run_actions m (i :: ins) = snd (loop m i) ++ run_actions (step m i) ins.
Proof. reflexivity. Qed.

(** C4, amended: with the set point at 1 (0:05) and the arming pass at any
    instant [t0] of the 32-bit counter, the timer is still running at
    5000 ms and 5999 ms after arming; the sixth elapsed-second tick, at
    6000 ms, stores S_END, and the next pass switches the relay off.  Over
    the whole run the relay is written HIGH once and then LOW once, and its
    level falls exactly once. *)
Theorem one_unit_run_ends_on_sixth_tick (t0 : Z) :
  observe power_on (one_unit_run t0) =
    [(S_IDLE, LOW); (S_INIT, LOW); (S_IDLE, LOW); (S_START, LOW);
     (S_RUNNING, HIGH);
     (S_RUNNING, HIGH); (S_RUNNING, HIGH); (S_RUNNING, HIGH);
     (S_RUNNING, HIGH); (S_RUNNING, HIGH);
     (S_RUNNING, HIGH);
     (S_END, HIGH);
     (S_INIT, LOW)] /\
  filter is_relay_write (run_actions power_on (one_unit_run t0)) =
    [Call_digitalWrite OUTPUT_PIN HIGH; Call_digitalWrite OUTPUT_PIN LOW] /\
  falling_edges LOW (map snd (observe power_on (one_unit_run t0))) = 1%nat.
Proof.
  assert (Hstart : forall m rest,
             state m = S_START ->
             observe m (map (later t0) (quiet 0 :: rest)) =
             observe m (quiet 0 :: rest) /\
             run_actions m (map (later t0) (quiet 0 :: rest)) =
             run_actions m (quiet 0 :: rest)).
  { intros m rest Hst. cbn [map].
    rewrite !observe_cons, !run_actions_cons.
    assert (Hstep : step m (later t0 (quiet 0)) = rebase t0 (step m (quiet 0))).
    { unfold step, loop. rewrite Hst. reflexivity. }
    assert (Hacts : snd (loop m (later t0 (quiet 0))) = snd (loop m (quiet 0))).
    { unfold loop. rewrite Hst. reflexivity. }
    rewrite Hstep, Hacts, observe_rebase, run_actions_rebase.
    split; reflexivity. }
  unfold one_unit_run. rewrite observe_app, run_actions_app.
  destruct (Hstart (run power_on arm_one_unit) (tl after_arming) eq_refl)
    as [Hobs Hacts].
  change (quiet 0 :: tl after_arming) with after_arming in Hobs, Hacts.
  rewrite Hobs, Hacts.
  vm_compute. repeat split; reflexivity.
Qed.

(** ** The countdown in general *)

Lemma ticks_S (ts : Z) (n : nat) :
  ticks ts (S n) = quiet (ts + 1000) :: ticks (ts + 1000) n.
Proof.
  unfold ticks. cbn [seq map]. f_equal.
  rewrite <- seq_shift, map_map. apply map_ext. intros k. f_equal. lia.
Qed.

Lemma tick_due (m : machine) (ts : Z) :
  timeStart m = to_uint32 ts ->
  second_elapsed (quiet (ts + 1000)) m = true.
Proof.
  intros Hts. unfold second_elapsed, millis. cbn [now quiet].
  rewrite Hts, to_uint32_elapsed by lia. reflexivity.
Qed.

(** A tick above 0:00 takes one second off and stays in S_RUNNING. *)
Lemma tick_counts_down (m : machine) (i : input) :
  state m = S_RUNNING ->
  0 <= minutes m <= 99 -> 0 <= seconds m <= 59 ->
  second_elapsed i m = true -> sw i <> KS_PRESS ->
  0 < seconds_left m ->
  let m' := step m i in
  state m' = S_RUNNING /\
  seconds_left m' = seconds_left m - 1 /\
  0 <= minutes m' <= 99 /\ 0 <= seconds m' <= 59 /\
  timeStart m' = to_uint32 (timeStart m + 1000).
Proof.
  intros Hst Hmi Hse Hel Hsw Hpos. cbv zeta. unfold seconds_left in *.
  unfold step, loop. rewrite Hst. fields. unfold case_S_RUNNING.
  rewrite Hel. fields.
  destruct (Z.eqb_spec (seconds m) 0) as [Hz|Hnz]; fields;
    [destruct (Z.eqb_spec (minutes m) 0) as [Hmz|Hmnz]; fields; [lia|]|];
    rewrite ?to_int8_small by lia;
    destruct (sw i); try congruence; fields; repeat split;
    assumption || lia.
Qed.

(** From S_RUNNING with [n] seconds left, [n] ticks bring the remaining time
    to 0:00 with the timer still running, and the tick after them stores
    S_END: a count of [n] seconds keeps the relay on for [n + 1] ticks. *)
Lemma countdown_takes_one_more_tick (n : nat) (m : machine) (ts : Z) :
  state m = S_RUNNING ->
  0 <= minutes m <= 99 -> 0 <= seconds m <= 59 ->
  timeStart m = to_uint32 ts ->
  seconds_left m = Z.of_nat n ->
  let m' := run m (ticks ts n) in
  state m' = S_RUNNING /\ minutes m' = 0 /\ seconds m' = 0 /\
  state (step m' (quiet (ts + 1000 * Z.of_nat (S n)))) = S_END.
Proof.
  revert m ts. induction n as [|n IH]; intros m ts Hst Hmi Hse Hts Hleft.
  - cbv zeta. cbn [ticks seq map run]. unfold seconds_left in Hleft.
    assert (Hm0 : minutes m = 0) by lia. assert (Hs0 : seconds m = 0) by lia.
    repeat split; try assumption.
    rewrite final_tick_ends; try assumption; try reflexivity;
      try discriminate.
    replace (ts + 1000 * Z.of_nat 1) with (ts + 1000) by lia.
    now apply tick_due.
  - cbv zeta. rewrite ticks_S. cbn [run].
    destruct (tick_counts_down m (quiet (ts + 1000)) Hst Hmi Hse
                (tick_due m ts Hts) ltac:(discriminate) ltac:(lia))
      as (Hst' & Hleft' & Hmi' & Hse' & Hts').
    specialize (IH (step m (quiet (ts + 1000))) (ts + 1000) Hst' Hmi' Hse').
    cbv zeta in IH.
    replace (ts + 1000 * Z.of_nat (S (S n)))
      with (ts + 1000 + 1000 * Z.of_nat (S n)) by lia.
    apply IH.
    + rewrite Hts', Hts. apply to_uint32_add_l.
    + lia.
Qed.

(** ** What the timer shows *)

(** Outside a message, a pass first shows the remaining time as the number
    minutes*100 + seconds with the decimal point at digit index 2. *)
Lemma loop_shows_remaining_time (m : machine) (i : input) :
  inv m -> inMessage m = false ->
  exists rest,
    snd (loop m i) = Call_displayTime (minutes m * 100 + seconds m) 2 :: rest.
Proof.
  intros [_ Hmi Hse _ _] Him. unfold loop. rewrite Him. cbn [negb].
  unfold TIME_MAX_MINUTES in Hmi.
  rewrite to_uint16_small by lia.
  destruct (state m); cbn; eexists; reflexivity.
Qed.

(** ** Rendering 1205 *)

(** C8, as stated, fails on the position of the decimal point: of the four
    patterns of 1205 read from the left, the third one is the plain pattern
    of 0; its decimal-point bit is clear. *)
Lemma decimal_point_not_on_third_digit :
  let shown :=
    left_to_right (lit_digits pins_after_setup_writes (displayTime updateSegments 1205 2)) in
  nth 2 shown None = Some 0x3f /\
  digit_shown (nth 2 shown None) = Some 0 /\
  decimal_point (nth 2 shown None) = false.
Proof. vm_compute. repeat split; reflexivity. Qed.

(** C8, amended: whatever the pin levels before the call, rendering 1205
    with decimal-point index 2 shows, from the left, the patterns of 1, 2, 0
    and 5, the most significant digit leftmost; the decimal-point bit is set
    on the second pattern from the left (digit index 2 counted from the
    least significant digit) and on no other. *)
Theorem render_1205 (s : pins) :
  let shown := left_to_right (lit_digits s (displayTime updateSegments 1205 2)) in
  shown = [Some 0x06; Some 0xdb; Some 0x3f; Some 0x6d] /\
  map digit_shown shown = [Some 1; Some 2; Some 0; Some 5] /\
  map decimal_point shown = [false; true; false; false].
Proof.
  cbv zeta.
  assert (H : left_to_right (lit_digits s (displayTime updateSegments 1205 2)) =
              [Some 0x06; Some 0xdb; Some 0x3f; Some 0x6d])
    by (vm_compute; reflexivity).
  rewrite H. repeat split; reflexivity.
Qed.

(** ** Blank before load *)

Lemma replay_app (s : pins) (a b : list event) :
  replay s (a ++ b) = replay (replay s a) b.
Proof. unfold replay. apply fold_left_app. Qed.

Lemma multiplex_ok_app (a b : list event) (s : pins) :
  multiplex_ok s (a ++ b) = multiplex_ok s a && multiplex_ok (replay s a) b.
Proof.
  revert s. induction a as [|e a IH]; intros s; [reflexivity|].
  cbn [app multiplex_ok]. rewrite IH. cbn. now rewrite andb_assoc.
Qed.

Lemma enabled_digits_other (s : pins) (e : event) :
  drives_digit e = false ->
  enabled_digits (apply_event s e) = enabled_digits s.
Proof.
  intros He. destruct e as [p l|v]; [|reflexivity].
  unfold enabled_digits. f_equal. apply filter_ext_in. intros q Hq.
  cbn [apply_event]. cbn [drives_digit] in He.
  destruct (Z.eqb_spec q p) as [->|_]; [|reflexivity].
  assert (Hex : existsb (Z.eqb p) digitPin = true).
  { apply existsb_exists. exists p. split; [exact Hq | apply Z.eqb_refl]. }
  congruence.
Qed.

Lemma loading_ok (tr : list event) (s : pins) :
  (forall e, In e tr -> drives_digit e = false) ->
  enabled_digits s = 0%nat ->
  multiplex_ok s tr = true /\ enabled_digits (replay s tr) = 0%nat.
Proof.
  revert s. induction tr as [|e tr IH]; intros s Hno Hs; [now split|].
  assert (He : drives_digit e = false) by (apply Hno; now left).
  assert (Hs' : enabled_digits (apply_event s e) = 0%nat)
    by (now rewrite enabled_digits_other).
  destruct (IH (apply_event s e)) as [Hok Hend];
    [intros e' He'; apply Hno; now right | exact Hs' |].
  split; [|exact Hend].
  cbn [multiplex_ok]. rewrite Hs', Hs, Hok, He. reflexivity.
Qed.

Lemma all_digits_off_ok (s : pins) :
  (enabled_digits s <= 1)%nat ->
  multiplex_ok s all_digits_off = true /\
  enabled_digits (replay s all_digits_off) = 0%nat.
Proof.
  unfold enabled_digits, all_digits_off, replay. cbn.
  destruct (s 4), (s 5), (s 6), (s 7); cbn; intros H; try lia;
    split; reflexivity.
Qed.

Lemma enable_ok (s : pins) (i : nat) :
  (i < 4)%nat ->
  enabled_digits s = 0%nat ->
  multiplex_ok s [DigitalWrite (nth i digitPin 0) DIGIT_ON] = true /\
  enabled_digits (replay s [DigitalWrite (nth i digitPin 0) DIGIT_ON]) = 1%nat.
Proof.
  intros Hi. unfold enabled_digits, replay.
  destruct i as [|[|[|[|i]]]]; try lia; cbn;
    destruct (s 4), (s 5), (s 6), (s 7); cbn; intros H;
    try discriminate H; split; reflexivity.
Qed.

Section Multiplexing.

(** The primitive that commits a segment pattern: it may do anything but
    drive a digit-select line. *)
Variable commit : Z -> list event.
Hypothesis commit_keeps_digits :
  forall (v : Z) (e : event), In e (commit v) -> drives_digit e = false.

Lemma block_ok (iv : nat * Z) (s : pins) :
  (fst iv < 4)%nat ->
  (enabled_digits s <= 1)%nat ->
  multiplex_ok s (block commit iv) = true /\
  (enabled_digits (replay s (block commit iv)) <= 1)%nat.
Proof.
  intros Hi Hs. unfold block.
  destruct (all_digits_off_ok s Hs) as [Hoff Hoff0].
  destruct (loading_ok (commit (snd iv)) _ (commit_keeps_digits (snd iv)) Hoff0)
    as [Hload Hload0].
  destruct (enable_ok _ (fst iv) Hi Hload0) as [Hen Hen1].
  rewrite !multiplex_ok_app, !replay_app, Hoff, Hload, Hen, Hen1.
  split; [reflexivity | lia].
Qed.

Lemma blocks_ok (l : list (nat * Z)) (s : pins) :
  Forall (fun iv => (fst iv < 4)%nat) l ->
  (enabled_digits s <= 1)%nat ->
  multiplex_ok s (flat_map (block commit) l) = true /\
  (enabled_digits (replay s (flat_map (block commit) l)) <= 1)%nat.
Proof.
  revert s. induction l as [|iv l IH]; intros s Hl Hs; [now split|].
  inversion Hl as [|? ? Hiv Hl']; subst.
  destruct (block_ok iv s Hiv Hs) as [Hok Hs'].
  cbn [flat_map]. rewrite multiplex_ok_app, replay_app, Hok. cbn [andb].
  now apply IH.
Qed.

Lemma block_cons (iv : nat * Z) (rest : list event) :
  all_digits_off ++ commit (snd iv) ++
  DigitalWrite (nth (fst iv) digitPin 0) DIGIT_ON :: rest =
  block commit iv ++ rest.
Proof. unfold block. now rewrite <- !app_assoc. Qed.

(** [displayTime] is a sequence of blocks, one per loop index. *)
Lemma displayTime_from_blocks (n i : nat) (val decDigit : Z) :
  exists l,
    displayTime_from commit n i val decDigit = flat_map (block commit) l /\
    map fst l = seq i n.
Proof.
  revert i val. induction n as [|n IH]; intros i val.
  - exists []. split; reflexivity.
  - destruct (IH (S i) (val / 10)) as (l & Hl & Hidx).
    exists ((i, nth (Z.to_nat (to_uint8 (val mod 10))) digits 0 +
                (if decDigit =? Z.of_nat i then DECIMAL else 0)) :: l).
    split.
    + cbn [displayTime_from flat_map]. rewrite Hl.
      apply (block_cons (i, _)).
    + cbn [map fst seq]. now rewrite Hidx.
Qed.

(** One frame of [displayMessage]: blocks for the digits n-1 down to 0. *)
Lemma displayMessage_frame_blocks (flash : Z -> Z) (n : nat) (p : string) :
  exists l,
    displayMessage_frame commit flash n p = flat_map (block commit) l /\
    map fst l = rev (seq 0 n).
Proof.
  revert p. induction n as [|n IH]; intros p.
  - exists []. split; reflexivity.
  - cbn [displayMessage_frame].
    destruct (match p with
              | String c rest =>
                  if Ascii.eqb c Ascii.zero then (0, p)
                  else (pgm_read_alpha flash
                          (toupper (Z.of_N (N_of_ascii c)) - 65), rest)
              | EmptyString => (0, p)
              end) as [v p'].
    destruct (IH p') as (l & Hl & Hidx).
    exists ((n, v) :: l). split.
    + cbn [flat_map]. rewrite Hl. apply (block_cons (n, v)).
    + cbn [map fst]. rewrite Hidx, seq_S, rev_app_distr. reflexivity.
Qed.

Lemma displayMessage_while_cons (flash : Z -> Z) (t : Z) (clock : list Z)
  (startTime : Z) (pMesg : string) (duration : Z) :
  displayMessage_while commit flash (t :: clock) startTime pMesg duration =
  if to_uint32 (to_uint32 t - startTime) <? duration then
    match displayMessage_while commit flash clock startTime pMesg duration with
    | Some tr =>
        Some (displayMessage_frame commit flash (List.length digitPin) pMesg ++ tr)
    | None => None
    end
  else Some [].
Proof. reflexivity. Qed.

(** [displayMessage], when it returns, has shown whole frames only. *)
Lemma displayMessage_while_blocks (flash : Z -> Z) (clock : list Z)
  (startTime : Z) (pMesg : string) (duration : Z) (tr : list event) :
  displayMessage_while commit flash clock startTime pMesg duration = Some tr ->
  exists (k : nat) (l : list (nat * Z)),
    tr = flat_map (block commit) l /\
    map fst l = concat (repeat [3; 2; 1; 0]%nat k).
Proof.
  revert tr. induction clock as [|t clock IH]; intros tr H; [discriminate H|].
  rewrite displayMessage_while_cons in H.
  destruct (to_uint32 (to_uint32 t - startTime) <? duration).
  - destruct (displayMessage_while commit flash clock startTime pMesg duration)
      as [tr'|]; [|discriminate H].
    assert (Htr : tr = displayMessage_frame commit flash (List.length digitPin)
                         pMesg ++ tr') by congruence.
    destruct (IH tr' eq_refl) as (k & l & Hl & Hidx).
    destruct (displayMessage_frame_blocks flash (List.length digitPin) pMesg)
      as (lf & Hlf & Hidxf).
    exists (S k), (lf ++ l). split.
    + now rewrite Htr, flat_map_app, Hlf, Hl.
    + rewrite map_app, Hidx, Hidxf. reflexivity.
  - exists O, []. split; [cbn [flat_map]; congruence | reflexivity].
Qed.

Lemma frames_in_range (k : nat) (l : list (nat * Z)) :
  map fst l = concat (repeat [3; 2; 1; 0]%nat k) ->
  Forall (fun iv => (fst iv < 4)%nat) l.
Proof.
  intros H. apply Forall_forall. intros iv Hin.
  assert (Hi : In (fst iv) (concat (repeat [3; 2; 1; 0]%nat k)))
    by (rewrite <- H; now apply in_map).
  apply in_concat in Hi. destruct Hi as (f & Hf & Hif).
  apply repeat_spec in Hf. subst f.
  cbn in Hif. lia.
Qed.

(** Both routines, over any such primitive: blocks in the prescribed order,
    never two digits enabled, segments loaded with all digits disabled. *)
Lemma renderer_multiplexing (flash : Z -> Z) (clock : list Z)
  (pMesg : string) (val decDigit duration : Z) (s : pins) :
  (enabled_digits s <= 1)%nat ->
  (exists l,
     displayTime commit val decDigit = flat_map (block commit) l /\
     map fst l = [0; 1; 2; 3]%nat) /\
  multiplex_ok s (displayTime commit val decDigit) = true /\
  (enabled_digits (replay s (displayTime commit val decDigit)) <= 1)%nat /\
  (forall tr,
     displayMessage commit flash clock pMesg duration = Some tr ->
     (exists (k : nat) (l : list (nat * Z)),
        tr = flat_map (block commit) l /\
        map fst l = concat (repeat [3; 2; 1; 0]%nat k)) /\
     multiplex_ok s tr = true /\
     (enabled_digits (replay s tr) <= 1)%nat).
Proof.
  intros Hs.
  destruct (displayTime_from_blocks (List.length digitPin) 0 (to_uint16 val)
              (to_uint8 decDigit)) as (l & Hl & Hidx).
  split; [exists l; split; [exact Hl | exact Hidx]|].
  rewrite <- and_assoc. split.
  - unfold displayTime. rewrite Hl. apply blocks_ok; [|exact Hs].
    apply Forall_forall. intros iv Hin.
    assert (Hi : In (fst iv) (seq 0 (List.length digitPin)))
      by (rewrite <- Hidx; now apply in_map).
    apply in_seq in Hi. cbn in Hi. lia.
  - intros tr Htr. unfold displayMessage in Htr.
    destruct clock as [|t0 clock']; [discriminate Htr|].
    destruct (displayMessage_while_blocks _ _ _ _ _ _ Htr) as (k & lm & -> & Hk).
    split; [exists k, lm; split; [reflexivity | exact Hk]|].
    apply blocks_ok; [|exact Hs]. now apply (frames_in_range k).
Qed.

End Multiplexing.

Lemma updateSegments_keeps_digits (v : Z) (e : event) :
  In e (updateSegments v) -> drives_digit e = false.
Proof.
  unfold updateSegments. generalize (to_uint8 v) as w. intros w H.
  cbn in H.
  repeat (destruct H as [<-|H]; [reflexivity|]). destruct H.
Qed.

Lemma spiSend_keeps_digits (v : Z) (e : event) :
  In e (spiSend v) -> drives_digit e = false.
Proof.
  intros H. cbn in H.
  repeat (destruct H as [<-|H]; [reflexivity|]). destruct H.
Qed.

(** The 74HC595 variant keeps the discipline as well. *)
Lemma multiplexing_595 (flash : Z -> Z) (clock : list Z)
  (pMesg : string) (val decDigit duration : Z) (s : pins) :
  (enabled_digits s <= 1)%nat ->
  multiplex_ok s (displayTime spiSend val decDigit) = true /\
  (forall tr,
     displayMessage spiSend flash clock pMesg duration = Some tr ->
     multiplex_ok s tr = true).
Proof.
  intros Hs.
  destruct (renderer_multiplexing spiSend spiSend_keeps_digits flash clock
              pMesg val decDigit duration s Hs) as (_ & Ht & _ & Hm).
  split; [exact Ht|]. intros tr Htr. now apply Hm.
Qed.

(** [displayMessage] returns as soon as a reading of the clock is at least
    [duration] past the start. *)
Lemma displayMessage_returns (commit : Z -> list event) (flash : Z -> Z)
  (t0 : Z) (clock : list Z) (pMesg : string) (duration : Z) :
  Exists (fun t => to_uint16 duration <= to_uint32 (to_uint32 t - to_uint32 t0))
         clock ->
  exists tr, displayMessage commit flash (t0 :: clock) pMesg duration = Some tr.
Proof.
  unfold displayMessage.
  generalize (to_uint32 t0) as st, (to_uint16 duration) as d. intros st d H.
  induction H as [t clock Ht | t clock _ IH]; cbn [displayMessage_while].
  - destruct (Z.ltb_spec (to_uint32 (to_uint32 t - st)) d) as [Hlt|_]; [lia|].
    now eexists.
  - destruct (to_uint32 (to_uint32 t - st) <? d); [|now eexists].
    destruct IH as [tr ->]. now eexists.
Qed.

(** * Further properties of the display *)

Lemma replay_cons (s : pins) (e : event) (tr : list event) :
  replay s (e :: tr) = replay (apply_event s e) tr.
Proof. reflexivity. Qed.

Lemma segments_lit_ext (s1 s2 : pins) :
  (forall q, In q segmentPin -> s1 q = s2 q) ->
  segments_lit s1 = segments_lit s2.
Proof.
  intros H. unfold segments_lit.
  induction segmentPin as [|p ps IH]; [reflexivity|].
  cbn [fold_right]. rewrite (H p) by now left.
  rewrite IH; [reflexivity|]. intros q Hq. apply H. now right.
Qed.

(** Events on other pins leave a pin as it was. *)
Lemma replay_other_pins (q : Z) (tr : list event) (s : pins) :
  (forall p l, In (DigitalWrite p l) tr -> p <> q) ->
  replay s tr q = s q.
Proof.
  revert s. induction tr as [|e tr IH]; intros s H; [reflexivity|].
  rewrite replay_cons, IH by (intros p l Hin; apply (H p l); now right).
  destruct e as [p l|v]; [|reflexivity]. cbn [apply_event].
  destruct (Z.eqb_spec q p) as [->|_]; [|reflexivity].
  exfalso. apply (H p l); [now left | reflexivity].
Qed.

Lemma updateSegments_from_pins (pins0 : list Z) (w p : Z) (l : bool) :
  In (DigitalWrite p l) (updateSegments_from pins0 w) -> In p pins0.
Proof.
  revert w. induction pins0 as [|p0 ps IH]; intros w H; [destruct H|].
  cbn [updateSegments_from] in H. destruct H as [H|H].
  - injection H as -> _. now left.
  - right. now apply (IH (Z.shiftr w 1)).
Qed.

Lemma bytes_upto_In (n : nat) (w : Z) : 0 <= w < Z.of_nat n -> In w (bytes_upto n).
Proof.
  induction n as [|n IH]; intros H; [lia|].
  cbn [bytes_upto]. destruct (Z.eq_dec w (Z.of_nat n)) as [->|Hne]; [now left|].
  right. apply IH. lia.
Qed.

Lemma updateSegments_byte (s : pins) (w : Z) :
  0 <= w < 256 ->
  segments_lit (replay s (updateSegments_from segmentPin w)) = w.
Proof.
  intros Hw.
  assert (Hall : forallb (fun w => segments_lit
                   (replay s (updateSegments_from segmentPin w)) =? w)
                   (bytes_upto 256) = true) by (vm_compute; reflexivity).
  rewrite forallb_forall in Hall.
  apply Z.eqb_eq. apply Hall. apply bytes_upto_In. exact Hw.
Qed.

Lemma updateSegments_lit (s : pins) (v : Z) :
  segments_lit (replay s (updateSegments v)) = to_uint8 v.
Proof.
  unfold updateSegments. apply updateSegments_byte.
  unfold to_uint8. apply Z.mod_pos_bound. lia.
Qed.

(** X1: [updateSegments] puts the low eight bits of its argument on the
    segment pins, bit k on [segmentPin[k]], whatever the pins held before,
    and changes no other pin. *)
Theorem updateSegments_loads_byte (s : pins) (v : Z) :
  segments_lit (replay s (updateSegments v)) = to_uint8 v /\
  (forall q, ~ In q segmentPin -> replay s (updateSegments v) q = s q).
Proof.
  split; [apply updateSegments_lit|].
  intros q Hq.
  - apply replay_other_pins. intros p l Hin ->.
    apply Hq. unfold updateSegments in Hin.
    now apply updateSegments_from_pins in Hin.
Qed.

Lemma lit_digits_app (a b : list event) (s : pins) :
  lit_digits s (a ++ b) = lit_digits s a ++ lit_digits (replay s a) b.
Proof.
  revert s. induction a as [|e a IH]; intros s; [reflexivity|].
  cbn [app lit_digits]. rewrite replay_cons.
  destruct e as [p l|v]; [|apply IH].
  destruct (existsb (Z.eqb p) digitPin && Bool.eqb l DIGIT_ON);
    cbn [app]; now rewrite IH.
Qed.

Lemma lit_digits_all_off (s : pins) : lit_digits s all_digits_off = [].
Proof. reflexivity. Qed.

Lemma lit_digits_updateSegments (s : pins) (v : Z) :
  lit_digits s (updateSegments v) = [].
Proof. reflexivity. Qed.

(** One block shows its pattern on its digit. *)
Lemma lit_digits_block (s : pins) (i : nat) (v : Z) :
  (i < 4)%nat ->
  lit_digits s (block updateSegments (i, v)) = [(nth i digitPin 0, to_uint8 v)].
Proof.
  intros Hi. unfold block. cbn [fst snd].
  rewrite !lit_digits_app, lit_digits_all_off, lit_digits_updateSegments.
  cbn [app]. rewrite <- replay_app.
  set (s1 := replay s (all_digits_off ++ updateSegments v)).
  assert (Hseg : forall pin, In pin digitPin ->
            segments_lit (apply_event s1 (DigitalWrite pin DIGIT_ON)) = to_uint8 v).
  { intros pin Hpin.
    rewrite <- (updateSegments_lit (replay s all_digits_off) v).
    unfold s1. rewrite replay_app. apply segments_lit_ext.
    intros q Hq. cbn [apply_event].
    destruct (Z.eqb_spec q pin) as [->|_]; [|reflexivity].
    exfalso. cbn in Hpin, Hq. lia. }
  destruct i as [|[|[|[|i]]]]; try lia; cbn [nth digitPin lit_digits];
    (rewrite Hseg by (cbn; tauto)); reflexivity.
Qed.

Lemma lit_digits_blocks (l : list (nat * Z)) (s : pins) :
  Forall (fun iv => (fst iv < 4)%nat) l ->
  lit_digits s (flat_map (block updateSegments) l) =
  map (fun iv => (nth (fst iv) digitPin 0, to_uint8 (snd iv))) l.
Proof.
  revert s. induction l as [|[i v] l IH]; intros s Hl; [reflexivity|].
  inversion Hl as [|? ? Hi Hl']; subst.
  cbn [flat_map map]. rewrite lit_digits_app, lit_digits_block by exact Hi.
  cbn [app fst snd]. now rewrite IH.
Qed.

Lemma displayTime_from_patterns (commit : Z -> list event) (n i : nat)
  (val decDigit : Z) :
  displayTime_from commit n i val decDigit =
  flat_map (block commit) (displayTime_patterns n i val decDigit).
Proof.
  revert i val. induction n as [|n IH]; intros i val; [reflexivity|].
  cbn [displayTime_from displayTime_patterns flat_map]. rewrite IH.
  unfold block. cbn [fst snd]. now rewrite <- !app_assoc.
Qed.

Lemma displayMessage_frame_patterns (commit : Z -> list event) (flash : Z -> Z)
  (n : nat) (p : string) :
  displayMessage_frame commit flash n p =
  flat_map (block commit) (frame_patterns flash n p).
Proof.
  revert p. induction n as [|n IH]; intros p; [reflexivity|].
  cbn [displayMessage_frame frame_patterns].
  destruct p as [|c rest]; [|destruct (Ascii.eqb c Ascii.zero)];
    cbn [flat_map]; rewrite IH; unfold block; cbn [fst snd];
    now rewrite <- !app_assoc.
Qed.

Lemma digit_pattern_decodes (d : Z) (b : bool) :
  0 <= d < 10 ->
  let pat := Some (to_uint8 (nth (Z.to_nat d) digits 0 +
                             (if b then DECIMAL else 0))) in
  digit_shown pat = Some d /\ decimal_point pat = b.
Proof.
  intros Hd.
  assert (H : d = 0 \/ d = 1 \/ d = 2 \/ d = 3 \/ d = 4 \/ d = 5 \/ d = 6 \/
              d = 7 \/ d = 8 \/ d = 9) by lia.
  repeat (destruct H as [->|H]); try subst d; destruct b; split; reflexivity.
Qed.

Lemma displayTime_digits (s : pins) (val decDigit : Z) :
  let v := to_uint16 val in
  let d := to_uint8 decDigit in
  let shown := left_to_right (lit_digits s (displayTime updateSegments val decDigit)) in
  map digit_shown shown =
    [Some (v / 1000 mod 10); Some (v / 100 mod 10); Some (v / 10 mod 10);
     Some (v mod 10)] /\
  map decimal_point shown = [d =? 3; d =? 2; d =? 1; d =? 0].
Proof.
  cbv zeta. unfold displayTime.
  rewrite displayTime_from_patterns, lit_digits_blocks
    by (repeat constructor).
  generalize (to_uint16 val) as v, (to_uint8 decDigit) as d. intros v d.
  cbn [List.length digitPin displayTime_patterns map fst snd nth].
  assert (Hr : forall x, 0 <= to_uint8 (x mod 10) < 10 /\
                         to_uint8 (x mod 10) = x mod 10).
  { intros x. pose proof (Z.mod_pos_bound x 10 ltac:(lia)).
    unfold to_uint8. rewrite Z.mod_small by lia. lia. }
  pose proof (digit_pattern_decodes _ (d =? Z.of_nat 0) (proj1 (Hr v))) as H0.
  pose proof (digit_pattern_decodes _ (d =? Z.of_nat 1) (proj1 (Hr (v / 10)))) as H1.
  pose proof (digit_pattern_decodes _ (d =? Z.of_nat 2)
                (proj1 (Hr (v / 10 / 10)))) as H2.
  pose proof (digit_pattern_decodes _ (d =? Z.of_nat 3)
                (proj1 (Hr (v / 10 / 10 / 10)))) as H3.
  cbv zeta in H0, H1, H2, H3.
  destruct H0 as [H0 H0'], H1 as [H1 H1'], H2 as [H2 H2'], H3 as [H3 H3'].
  unfold left_to_right. cbn [rev digitPin app map last_shown].
  cbn [Z.eqb Pos.eqb].
  rewrite H0, H1, H2, H3, H0', H1', H2', H3'.
  rewrite !(proj2 (Hr _)), !Z.div_div by lia.
  split; reflexivity.
Qed.

(** X2: whatever the pins held, [displayTime] leaves on the panel, from the
    left, the thousands, hundreds, tens and units digit of its 16-bit
    argument (a value above 9999 shows its last four digits), with the
    decimal point lit exactly on the digit whose index from the right is
    [decDigit] (on none when [decDigit] is 4 or more). *)
Theorem displayTime_shows_decimal_digits (s : pins) (val decDigit : Z) :
  let v := to_uint16 val in
  let d := to_uint8 decDigit in
  let shown := left_to_right (lit_digits s (displayTime updateSegments val decDigit)) in
  map digit_shown shown =
    [Some (v / 1000 mod 10); Some (v / 100 mod 10); Some (v / 10 mod 10);
     Some (v mod 10)] /\
  map decimal_point shown = [d =? 3; d =? 2; d =? 1; d =? 0].
Proof. exact (displayTime_digits s val decDigit). Qed.

(** A letter is no terminator, and its pattern comes from the table, not
    from the memory around it. *)
Lemma letter_lookup (flash : Z -> Z) (c : ascii) :
  is_letter c = true ->
  Ascii.eqb c Ascii.zero = false /\
  to_uint8 (pgm_read_alpha flash (toupper (Z.of_N (N_of_ascii c)) - 65)) =
  letter_pattern c.
Proof.
  destruct c as [b0 b1 b2 b3 b4 b5 b6 b7].
  destruct b0, b1, b2, b3, b4, b5, b6, b7; intros H;
    try discriminate H; split; reflexivity.
Qed.

Lemma left_to_right_frame (a b c d : Z) :
  left_to_right [(nth 3 digitPin 0, a); (nth 2 digitPin 0, b);
                 (nth 1 digitPin 0, c); (nth 0 digitPin 0, d)] =
  [Some a; Some b; Some c; Some d].
Proof. reflexivity. Qed.

(** X3: one frame of [displayMessage] over a message of letters shows, from
    the left, the table patterns of its first four characters, upper and
    lower case alike; a shorter message is padded with blank digits and a
    longer one is cut after the fourth character. *)
Theorem message_frame_shows_first_four (flash : Z -> Z) (s : pins) (p : string) :
  forallb is_letter (list_ascii_of_string p) = true ->
  left_to_right
    (lit_digits s (displayMessage_frame updateSegments flash (List.length digitPin) p)) =
  map Some (firstn 4 (map letter_pattern (list_ascii_of_string p) ++ [0; 0; 0; 0])).
Proof.
  intros Hp. rewrite displayMessage_frame_patterns.
  assert (Hblank : to_uint8 0 = 0) by reflexivity.
  assert (Hfr : forall l,
             map fst l = [3; 2; 1; 0]%nat ->
             left_to_right (lit_digits s (flat_map (block updateSegments) l)) =
             map Some (map to_uint8 (map snd l))).
  { intros l Hl.
    destruct l as [|[i3 a] [|[i2 b] [|[i1 c] [|[i0 d] [|? ?]]]]];
      try discriminate Hl.
    injection Hl as -> -> -> ->.
    rewrite lit_digits_blocks by (repeat constructor; cbn; lia).
    apply left_to_right_frame. }
  cbn [List.length digitPin].
  destruct p as [|c1 [|c2 [|c3 [|c4 rest]]]]; cbn [list_ascii_of_string forallb] in Hp;
    repeat match type of Hp with
      | (_ && _) = true => apply andb_prop in Hp; destruct Hp as [?Hc Hp]
      end;
    repeat match goal with
      | H : is_letter ?c = true |- _ =>
          destruct (letter_lookup flash c H) as [?Hz ?Hv]; clear H
      end;
    cbn [frame_patterns]; rewrite ?Hz, ?Hz0, ?Hz1, ?Hz2;
    cbn [frame_patterns];
    (rewrite Hfr by reflexivity);
    cbn [map snd list_ascii_of_string app firstn];
    rewrite ?Hv, ?Hv0, ?Hv1, ?Hv2, ?Hblank; reflexivity.
Qed.

Lemma message_frame_shows_first_four_witness :
  left_to_right
    (lit_digits pins_after_setup_writes
       (displayMessage_frame updateSegments (fun _ => 255) (List.length digitPin) "Pause")) =
  [Some 0x73; Some 0x77; Some 0x3e; Some 0x6d].
Proof.
  exact (message_frame_shows_first_four (fun _ => 255) pins_after_setup_writes "Pause"
           eq_refl).
Defined.

Lemma displayMessage_while_step (commit : Z -> list event) (flash : Z -> Z)
  (t : Z) (clock : list Z) (startTime : Z) (pMesg : string) (duration : Z) :
  displayMessage_while commit flash (t :: clock) startTime pMesg duration =
  if to_uint32 (to_uint32 t - startTime) <? duration then
    match displayMessage_while commit flash clock startTime pMesg duration with
    | Some tr =>
        Some (displayMessage_frame commit flash (List.length digitPin) pMesg ++ tr)
    | None => None
    end
  else Some [].
Proof. reflexivity. Qed.

(** X4: [displayMessage] repeats whole frames while the reading of the
    clock is less than [duration] (taken as a 16-bit value) past the
    reading at entry, and returns at the first reading that is not; the
    32-bit difference makes this hold wherever the counter stands or wraps.
    With a duration of 0 nothing is shown at all. *)
Theorem displayMessage_frames_until_elapsed (commit : Z -> list event)
  (flash : Z -> Z) (t0 : Z) (early : list Z) (d : Z) (rest : list Z)
  (pMesg : string) (duration : Z) :
  Forall (fun x => 0 <= x < to_uint16 duration) early ->
  to_uint16 duration <= d < 4294967296 ->
  displayMessage commit flash
    (t0 :: map (fun x => t0 + x) (early ++ d :: rest)) pMesg duration =
  Some (concat (repeat (displayMessage_frame commit flash (List.length digitPin) pMesg)
                       (List.length early))).
Proof.
  intros Hearly Hd. unfold displayMessage.
  assert (Hdur : 0 <= to_uint16 duration < 65536)
    by (unfold to_uint16; apply Z.mod_pos_bound; lia).
  induction Hearly as [|x early Hx _ IH].
  - cbn [app map List.length repeat concat]. rewrite displayMessage_while_step.
    rewrite to_uint32_elapsed by lia.
    destruct (Z.ltb_spec d (to_uint16 duration)); [lia | reflexivity].
  - cbn [app map List.length repeat concat]. rewrite displayMessage_while_step.
    rewrite to_uint32_elapsed by lia.
    destruct (Z.ltb_spec x (to_uint16 duration)); [|lia].
    cbn [app map] in IH. now rewrite IH.
Qed.

Lemma displayMessage_frames_until_elapsed_witness :
  displayMessage updateSegments (fun _ => 0)
    [4294967290; 4294967290; 4294967295; 24; 44; 99] "end" 65586 =
  Some (displayMessage_frame updateSegments (fun _ => 0) 4 "end" ++
        displayMessage_frame updateSegments (fun _ => 0) 4 "end" ++
        displayMessage_frame updateSegments (fun _ => 0) 4 "end" ++ []).
Proof.
  apply (displayMessage_frames_until_elapsed updateSegments (fun _ => 0)
           4294967290 [0; 5; 30] 50 [105] "end" 65586).
  - repeat constructor; vm_compute; congruence.
  - vm_compute. split; congruence.
Defined.

Lemma setup_writes_disable (s : pins) :
  enabled_digits (replay s setup_writes) = 0%nat /\
  segments_lit (replay s setup_writes) = 0.
Proof. split; reflexivity. Qed.

Lemma displayMessage_blocks (commit : Z -> list event) (flash : Z -> Z)
  (clock : list Z) (pMesg : string) (duration : Z) (tr : list event) :
  displayMessage commit flash clock pMesg duration = Some tr ->
  exists l, tr = flat_map (block commit) l /\
            Forall (fun iv => (fst iv < 4)%nat) l.
Proof.
  unfold displayMessage. destruct clock as [|t0 clock]; [discriminate|].
  intros H. destruct (displayMessage_while_blocks commit _ _ _ _ _ _ H)
    as (k & l & -> & Hk).
  exists l. split; [reflexivity | now apply (frames_in_range k)].
Qed.

(** X5: whatever levels the pins have at power-on, the level writes of
    [setup()] leave every digit-select line disabled and every segment off;
    the greeting that follows is multiplexed without two digits enabled and
    with the segments loaded only while all digits are disabled, and when
    [setup()] returns at most one digit is enabled. *)
Theorem setup_blanks_then_greets (flash : Z -> Z) (clock : list Z)
  (s : pins) (tr : list event) :
  setup flash clock = Some tr ->
  exists greeting,
    tr = setup_writes ++ greeting /\
    enabled_digits (replay s setup_writes) = 0%nat /\
    segments_lit (replay s setup_writes) = 0 /\
    multiplex_ok (replay s setup_writes) greeting = true /\
    (enabled_digits (replay s tr) <= 1)%nat.
Proof.
  unfold setup. intros H.
  destruct (displayMessage updateSegments flash clock "helo" 2000)
    as [greeting|] eqn:Hg; [|discriminate H].
  assert (Htr : tr = setup_writes ++ greeting) by congruence.
  subst tr. clear H. exists greeting.
  destruct (setup_writes_disable s) as [Hd Hs].
  destruct (displayMessage_blocks _ _ _ _ _ _ Hg) as (l & -> & Hl).
  destruct (blocks_ok updateSegments updateSegments_keeps_digits l
              (replay s setup_writes) Hl) as [Hok Hend]; [lia|].
  rewrite replay_app. repeat split; assumption.
Qed.

Lemma setup_blanks_then_greets_witness :
  exists tr greeting,
    setup (fun _ => 0) [0; 700; 1400; 2100] = Some tr /\
    tr = setup_writes ++ greeting /\
    multiplex_ok (replay (fun _ => DIGIT_ON) setup_writes) greeting = true /\
    (enabled_digits (replay (fun _ => DIGIT_ON) tr) <= 1)%nat.
Proof.
  destruct (setup (fun _ => 0) [0; 700; 1400; 2100]) as [tr|] eqn:Hs;
    [|vm_compute in Hs; discriminate Hs].
  destruct (setup_blanks_then_greets (fun _ => 0) [0; 700; 1400; 2100]
              (fun _ => DIGIT_ON) tr Hs) as (g & Htr & _ & _ & Hok & Hend).
  exists tr, g. repeat split; assumption.
Defined.

Lemma block_other_pins (q : Z) (iv : nat * Z) (p : Z) (l : bool) :
  ~ In q (digitPin ++ segmentPin) ->
  (fst iv < 4)%nat ->
  In (DigitalWrite p l) (block updateSegments iv) -> p <> q.
Proof.
  intros Hq Hi Hin ->. apply Hq. unfold block in Hin.
  apply in_app_or in Hin. destruct Hin as [Hin|Hin].
  - apply in_or_app. left. unfold all_digits_off in Hin.
    apply in_map_iff in Hin. destruct Hin as (p & Hp & Hin).
    injection Hp as -> _. exact Hin.
  - apply in_app_or in Hin. destruct Hin as [Hin|Hin].
    + apply in_or_app. right. unfold updateSegments in Hin.
      now apply updateSegments_from_pins in Hin.
    + apply in_or_app. left. destruct Hin as [Hin|[]].
      assert (Hqe : q = nth (fst iv) digitPin 0) by congruence.
      rewrite Hqe. apply nth_In. exact Hi.
Qed.

Lemma blocks_other_pins (q : Z) (l : list (nat * Z)) (s : pins) :
  ~ In q (digitPin ++ segmentPin) ->
  Forall (fun iv => (fst iv < 4)%nat) l ->
  replay s (flat_map (block updateSegments) l) q = s q.
Proof.
  intros Hq Hl. apply replay_other_pins. intros p lv Hin.
  apply in_flat_map in Hin. destruct Hin as (iv & Hiv & Hin).
  rewrite Forall_forall in Hl.
  exact (block_other_pins q iv p lv Hq (Hl iv Hiv) Hin).
Qed.

(** X6: the rendering routines write only the digit-select and segment
    pins: any other pin, the relay output among them, has after
    [displayTime] or [displayMessage] the level it had before. *)
Theorem rendering_keeps_other_pins (flash : Z -> Z) (clock : list Z)
  (pMesg : string) (val decDigit duration : Z) (s : pins) (q : Z) :
  ~ In q (digitPin ++ segmentPin) ->
  replay s (displayTime updateSegments val decDigit) q = s q /\
  (forall tr,
     displayMessage updateSegments flash clock pMesg duration = Some tr ->
     replay s tr q = s q).
Proof.
  intros Hq. split.
  - unfold displayTime. rewrite displayTime_from_patterns.
    apply blocks_other_pins; [exact Hq|]. cbn. repeat constructor; cbn; lia.
  - intros tr Htr.
    destruct (displayMessage_blocks _ _ _ _ _ _ Htr) as (l & -> & Hl).
    now apply blocks_other_pins.
Qed.

Lemma rendering_keeps_other_pins_witness :
  replay (fun _ => HIGH) (displayTime updateSegments 1205 2) OUTPUT_PIN = HIGH.
Proof.
  refine (proj1 (rendering_keeps_other_pins (fun _ => 0) [] "" 1205 2 0
                   (fun _ => HIGH) OUTPUT_PIN _)).
  cbn. intros H. repeat (destruct H as [H|H]; [discriminate H|]). exact H.
Defined.

(** X7: the routines of the 74HC595 variant, which hand the pattern to the
    shift register with [spiSend], keep the same discipline: started with
    at most one digit enabled they never enable two, the transfer to the
    register happens only while all digits are disabled, and at most one
    digit is enabled at the end. *)
Theorem shift_register_variant_multiplexes (flash : Z -> Z) (clock : list Z)
  (pMesg : string) (val decDigit duration : Z) (s : pins) :
  (enabled_digits s <= 1)%nat ->
  multiplex_ok s (displayTime spiSend val decDigit) = true /\
  (enabled_digits (replay s (displayTime spiSend val decDigit)) <= 1)%nat /\
  (forall tr,
     displayMessage spiSend flash clock pMesg duration = Some tr ->
     multiplex_ok s tr = true /\ (enabled_digits (replay s tr) <= 1)%nat).
Proof.
  intros Hs.
  destruct (renderer_multiplexing spiSend spiSend_keeps_digits flash clock
              pMesg val decDigit duration s Hs) as (_ & Ht & Hte & Hm).
  split; [exact Ht|]. split; [exact Hte|].
  intros tr Htr. exact (proj2 (Hm tr Htr)).
Qed.

Lemma shift_register_variant_multiplexes_witness :
  multiplex_ok pins_after_setup_writes (displayTime spiSend 59 2) = true /\
  (enabled_digits (replay pins_after_setup_writes (displayTime spiSend 59 2)) <= 1)%nat.
Proof.
  destruct (shift_register_variant_multiplexes (fun _ => 0) [] "" 59 2 0
              pins_after_setup_writes) as (Ht & Hte & _).
  - vm_compute. apply le_S, le_n.
  - split; assumption.
Defined.

(** * Further properties of the timer *)

Lemma power_on_consistent : consistent power_on.
Proof. constructor; cbn; discriminate. Qed.

Lemma step_consistent (m : machine) (i : input) :
  inv m -> consistent m -> consistent (step m i).
Proof.
  intros [Hsp _ _ _ _] [Hmsg Hidle]. unfold step, loop.
  destruct (state m) eqn:Hst; fields.
  - (* S_INIT *)
    rewrite case_S_INIT_spec by exact Hsp. constructor; fields.
    + intros Him. apply Hmsg in Him. discriminate Him.
    + intros _. split; reflexivity.
  - (* S_IDLE *)
    assert (Him : inMessage m = false)
      by (destruct (inMessage m); [discriminate (Hmsg eq_refl) | reflexivity]).
    destruct (Hidle eq_refl) as [Hmi Hse].
    unfold case_S_IDLE.
    destruct (re i);
      repeat match goal with
        | |- context [?a <? ?b] => destruct (a <? b)
        | |- context [?a >? ?b] => destruct (a >? b)
        end; fields; destruct (sw i); fields;
      repeat match goal with
        | |- context [?a =? ?b] => destruct (a =? b)
        end;
      constructor; unfold set_state, set_setPoint; fields;
      try (intros H; congruence); try (intros _; split; assumption).
  - (* S_START *)
    constructor; unfold set_state, set_relay, set_timeStart; fields;
      intros H; try discriminate H. apply Hmsg in H. discriminate H.
  - (* S_RUNNING *)
    assert (Him : inMessage m = false)
      by (destruct (inMessage m); [discriminate (Hmsg eq_refl) | reflexivity]).
    unfold case_S_RUNNING.
    destruct (second_elapsed i m);
      repeat match goal with
        | |- context [if ?c then _ else _] => destruct c; fields
        end;
      destruct (sw i); constructor;
      unfold set_state, set_seconds, set_minutes, set_timeStart; fields;
      intros H; congruence.
  - (* S_PAUSE *)
    unfold case_S_PAUSE. destruct (sw i); constructor;
      unfold set_state, set_inMessage, set_timeStart; fields;
      intros H; congruence.
  - (* S_END *)
    constructor; unfold set_state, set_relay; fields; intros H;
      try discriminate H. apply Hmsg in H. congruence.
Qed.

Lemma reachable_consistent (ins : list input) : consistent (run power_on ins).
Proof.
  induction ins as [|i ins IH] using rev_ind; [apply power_on_consistent|].
  rewrite run_snoc. apply step_consistent; [apply reachable_inv | exact IH].
Qed.

Lemma conversion_total (sp : Z) :
  60 * (sp * 5 / 60) + (sp * 5) mod 60 = 5 * sp.
Proof. pose proof (Z.div_mod (sp * 5) 60 ltac:(lia)). lia. Qed.

(** X8: from power-on and for every sequence of inputs, minutes stays
    within 0..99 and seconds within 0..59 (neither ever goes negative), the
    message flag is raised only in S_PAUSE, and whenever the state is S_IDLE
    the remaining time is exactly five seconds per unit of the set point. *)
Theorem remaining_time_well_formed (ins : list input) :
  let m := run power_on ins in
  0 <= minutes m <= 99 /\
  0 <= seconds m <= 59 /\
  (inMessage m = true -> state m = S_PAUSE) /\
  (state m = S_IDLE -> seconds_left m = 5 * setPoint m).
Proof.
  cbv zeta. destruct (reachable_inv ins) as [_ Hmi Hse _ _].
  destruct (reachable_consistent ins) as [Hmsg Hidle].
  unfold TIME_MAX_MINUTES in Hmi.
  repeat split; try lia; try assumption.
  intros Hst. unfold seconds_left. destruct (Hidle Hst) as [-> ->].
  apply conversion_total.
Qed.

(** X9: shifting every reading of the millisecond counter and the stored
    tick instant by the same amount, modulo 2^32, changes neither the
    states and relay levels an observer sees nor the calls made: the
    behaviour does not depend on where the counter stands or wraps. *)
Theorem counter_position_is_invisible (k : Z) (m : machine) (ins : list input) :
  observe (rebase k m) (map (later k) ins) = observe m ins /\
  run_actions (rebase k m) (map (later k) ins) = run_actions m ins /\
  run (rebase k m) (map (later k) ins) = rebase k (run m ins).
Proof.
  split; [apply observe_rebase|]. split; [apply run_actions_rebase|].
  revert m. induction ins as [|i ins IH]; intros m; [reflexivity|].
  cbn [map run]. now rewrite step_rebase, IH.
Qed.

(** X15: a pass moves the state only along the arrows of the switch; in
    particular the states with the relay on are left for S_INIT only
    through S_END, whose pass switches the relay off. *)
Theorem state_moves_along_switch (m : machine) (i : input) :
  may_follow (state m) (state (step m i)) = true.
Proof.
  unfold step, loop. destruct (state m) eqn:Hst; fields.
  - unfold case_S_INIT. fields. reflexivity.
  - unfold case_S_IDLE. rewrite <- Hst.
    destruct (re i);
      repeat match goal with
        | |- context [?a <? ?b] => destruct (a <? b)
        | |- context [?a >? ?b] => destruct (a >? b)
        end; fields; destruct (sw i); fields;
      repeat match goal with
        | |- context [?a =? ?b] => destruct (a =? b)
        end; unfold set_state, set_setPoint; fields; rewrite ?Hst; reflexivity.
  - reflexivity.
  - unfold case_S_RUNNING. rewrite <- Hst.
    destruct (second_elapsed i m);
      repeat match goal with
        | |- context [if ?c then _ else _] => destruct c; fields
        end;
      destruct (sw i);
      unfold set_state, set_seconds, set_minutes, set_timeStart; fields;
      rewrite ?Hst; reflexivity.
  - unfold case_S_PAUSE. rewrite <- Hst.
    destruct (sw i); unfold set_state, set_inMessage, set_timeStart; fields;
      rewrite ?Hst; reflexivity.
  - reflexivity.
Qed.

(** [k] ticks, none beyond the remaining seconds, take [k] seconds off and
    leave the timer running with everything else as it was. *)
Lemma countdown_after (k : nat) (m : machine) (ts : Z) :
  state m = S_RUNNING ->
  0 <= minutes m <= 99 -> 0 <= seconds m <= 59 ->
  timeStart m = to_uint32 ts ->
  Z.of_nat k <= seconds_left m ->
  let m' := run m (ticks ts k) in
  state m' = S_RUNNING /\
  seconds_left m' = seconds_left m - Z.of_nat k /\
  0 <= minutes m' <= 99 /\ 0 <= seconds m' <= 59 /\
  timeStart m' = to_uint32 (ts + 1000 * Z.of_nat k) /\
  relay m' = relay m /\ setPoint m' = setPoint m.
Proof.
  revert m ts. induction k as [|k IH]; intros m ts Hst Hmi Hse Hts Hk.
  - cbv zeta. cbn [ticks seq map run]. rewrite Z.add_0_r by lia.
    repeat split; try assumption; lia.
  - cbv zeta. rewrite ticks_S. cbn [run].
    pose proof (tick_due m ts Hts) as Hdue.
    destruct (tick_counts_down m (quiet (ts + 1000)) Hst Hmi Hse Hdue
                ltac:(discriminate) ltac:(lia))
      as (Hst' & Hleft' & Hmi' & Hse' & Hts').
    assert (Hkeep : relay (step m (quiet (ts + 1000))) = relay m /\
                    setPoint (step m (quiet (ts + 1000))) = setPoint m).
    { unfold step, loop. rewrite Hst. fields. unfold case_S_RUNNING.
      rewrite Hdue. fields.
      repeat match goal with
        | |- context [if ?c then _ else _] => destruct c; fields
        end; split; reflexivity. }
    destruct Hkeep as [Hrel Hsp].
    destruct (IH (step m (quiet (ts + 1000))) (ts + 1000) Hst' Hmi' Hse')
      as (H1 & H2 & H3 & H4 & H5 & H6 & H7).
    + rewrite Hts', Hts. apply to_uint32_add_l.
    + lia.
    + repeat split; try assumption; try lia; try congruence.
      rewrite H5. f_equal. lia.
Qed.

(** X10: from S_IDLE with a non-zero set point, a press (no encoder step in
    the same pass) and the arming pass at any instant [t0] start a run in
    which, for every k up to five times the set point, the k-th
    elapsed-second tick leaves the timer running with the relay on and
    5*setPoint - k seconds left; the tick after the last of them, number
    5*setPoint + 1, stores S_END. *)
Theorem armed_timer_runs_one_tick_longer (ins : list input) (t t0 : Z) (k : nat) :
  let m := run power_on ins in
  state m = S_IDLE ->
  setPoint m <> 0 ->
  Z.of_nat k <= 5 * setPoint m ->
  let running := run m (press t :: quiet t0 :: ticks t0 k) in
  state running = S_RUNNING /\
  relay running = HIGH /\
  seconds_left running = 5 * setPoint m - Z.of_nat k /\
  (Z.of_nat k = 5 * setPoint m ->
   state (step running (quiet (t0 + 1000 * Z.of_nat (S k)))) = S_END).
Proof.
  cbv zeta. intros Hst Hsp Hk.
  destruct (reachable_inv ins) as [_ Hmi Hse _ _].
  destruct (reachable_consistent ins) as [_ Hidle].
  destruct (Hidle Hst) as [Hm Hs].
  unfold TIME_MAX_MINUTES in Hmi.
  set (m := run power_on ins) in *.
  assert (Hleft : seconds_left m = 5 * setPoint m)
    by (unfold seconds_left; rewrite Hm, Hs; apply conversion_total).
  assert (Harm : step m (press t) = set_state S_START m).
  { unfold step, loop. rewrite Hst. fields. unfold case_S_IDLE, press. fields.
    destruct (Z.eqb_spec (setPoint m) 0); [contradiction | reflexivity]. }
  cbn [run]. rewrite Harm.
  set (r := step (set_state S_START m) (quiet t0)).
  assert (Hr : state r = S_RUNNING /\ relay r = HIGH /\
               minutes r = minutes m /\ seconds r = seconds m /\
               timeStart r = to_uint32 t0 /\ setPoint r = setPoint m)
    by (repeat split; reflexivity).
  destruct Hr as (Hr1 & Hr2 & Hr3 & Hr4 & Hr5 & Hr6). clearbody r.
  assert (Hleft' : seconds_left r = 5 * setPoint m)
    by (unfold seconds_left; rewrite Hr3, Hr4; exact Hleft).
  destruct (countdown_after k r t0 Hr1) as (H1 & H2 & H3 & H4 & H5 & H6 & H7);
    try lia.
  split; [exact H1|]. split; [congruence|]. split; [lia|].
  intros Hlast.
  unfold seconds_left in H2, Hleft'.
  assert (Hm0 : minutes (run r (ticks t0 k)) = 0) by lia.
  assert (Hs0 : seconds (run r (ticks t0 k)) = 0) by lia.
  rewrite final_tick_ends; try reflexivity; try assumption;
    try discriminate.
  unfold second_elapsed, millis, quiet. fields. rewrite H5.
  replace (t0 + 1000 * Z.of_nat (S k)) with (t0 + 1000 * Z.of_nat k + 1000) by lia.
  rewrite to_uint32_elapsed by lia. reflexivity.
Qed.

Lemma armed_timer_runs_one_tick_longer_witness :
  let m := run power_on [quiet 0; turn_cw 0; turn_cw 0; quiet 0; turn_cw 0; quiet 0] in
  let running := run m (press 7 :: quiet 4294960000 :: ticks 4294960000 10) in
  (state m = S_IDLE /\ setPoint m = 2) /\
  state running = S_RUNNING /\ relay running = HIGH /\
  seconds_left running = 0 /\
  state (step running (quiet (4294960000 + 1000 * 11))) = S_END.
Proof.
  cbv zeta. split; [split; reflexivity|].
  destruct (armed_timer_runs_one_tick_longer
              [quiet 0; turn_cw 0; turn_cw 0; quiet 0; turn_cw 0; quiet 0]
              7 4294960000 10) as (H1 & H2 & H3 & H4).
  - reflexivity.
  - vm_compute. discriminate.
  - vm_compute. discriminate.
  - split; [exact H1|]. split; [exact H2|]. split.
    + rewrite H3. reflexivity.
    + apply H4. reflexivity.
Defined.

(** X11: in S_IDLE the button is tested after the encoder has moved the set
    point and before the remaining time is converted again: a press in the
    pass of a clockwise step arms the timer, also from a set point of 0,
    with the new set point stored but with the remaining time of the old
    one, five seconds per unit of the set point before the step. *)
Theorem press_with_step_arms_old_time (ins : list input) (t : Z) :
  let m := run power_on ins in
  state m = S_IDLE ->
  setPoint m < TIME_MAX_SP ->
  let m' := step m (mkInput t DIR_CW KS_PRESS) in
  state m' = S_START /\
  setPoint m' = setPoint m + 1 /\
  seconds_left m' = 5 * setPoint m.
Proof.
  cbv zeta. intros Hst Hlt.
  destruct (reachable_inv ins) as [Hsp _ _ _ _].
  destruct (reachable_consistent ins) as [_ Hidle].
  destruct (Hidle Hst) as [Hm Hs].
  set (m := run power_on ins) in *. clearbody m.
  unfold step, loop. rewrite Hst. fields. unfold case_S_IDLE. fields.
  destruct (Z.ltb_spec (setPoint m) TIME_MAX_SP) as [_|Hge]; [|lia].
  rewrite TIME_MAX_SP_value in Hsp.
  unfold set_state, set_setPoint. fields.
  rewrite to_uint16_small by lia.
  destruct (Z.eqb_spec (setPoint m + 1) 0) as [Hz|_]; [lia|]. fields.
  repeat split. unfold seconds_left. fields. rewrite Hm, Hs.
  apply conversion_total.
Qed.

Lemma press_with_step_arms_old_time_witness :
  let m := run power_on [quiet 0] in
  let m' := step m (mkInput 0 DIR_CW KS_PRESS) in
  (state m = S_IDLE /\ setPoint m = 0) /\
  state m' = S_START /\ setPoint m' = 1 /\ seconds_left m' = 0.
Proof.
  cbv zeta. split; [split; reflexivity|].
  apply (press_with_step_arms_old_time [quiet 0] 0).
  - reflexivity.
  - reflexivity.
Defined.


(** X13: while paused, passes without a button event change nothing but
    the message flag, however many they are and whatever the clock and the
    encoder do: remaining time, set point, tick instant and relay stay. *)
Theorem pause_holds_everything (m : machine) (ins : list input) :
  state m = S_PAUSE ->
  ins <> [] ->
  Forall (fun i => sw i = KS_NULL) ins ->
  run m ins = set_inMessage true m.
Proof.
  intros Hst Hne Hall.
  assert (Hstep : forall m0 i, state m0 = S_PAUSE -> sw i = KS_NULL ->
                               step m0 i = set_inMessage true m0).
  { intros m0 i H0 Hi. unfold step, loop. rewrite H0. fields.
    unfold case_S_PAUSE. rewrite Hi. reflexivity. }
  assert (Hrest : forall js, Forall (fun i => sw i = KS_NULL) js ->
                             run (set_inMessage true m) js = set_inMessage true m).
  { intros js Hjs. induction Hjs as [|j js Hj _ IH]; [reflexivity|].
    cbn [run]. rewrite (Hstep (set_inMessage true m) j Hst Hj). exact IH. }
  destruct Hall as [|i ins Hi Hall]; [congruence|].
  cbn [run]. rewrite (Hstep m i Hst Hi). now apply Hrest.
Qed.

Lemma pause_holds_everything_witness :
  let m := mkMachine S_PAUSE 12 0 42 4294967000 false HIGH in
  run m [mkInput 4294967100 DIR_CW KS_NULL; mkInput 500 DIR_CCW KS_NULL;
         mkInput 90000 DIR_NONE KS_NULL] =
  mkMachine S_PAUSE 12 0 42 4294967000 true HIGH.
Proof.
  cbv zeta.
  apply (pause_holds_everything (mkMachine S_PAUSE 12 0 42 4294967000 false HIGH)).
  - reflexivity.
  - discriminate.
  - repeat constructor.
Defined.

Lemma loop_S_PAUSE_long (m : machine) (t : Z) (r : dir_t) :
  state m = S_PAUSE ->
  loop m (mkInput t r KS_LONGPRESS) =
  (mkMachine S_END (setPoint m) (minutes m) (seconds m) (timeStart m) false
             (relay m),
   (if negb (inMessage m)
    then [Call_displayTime (to_uint16 (minutes m * 100 + seconds m)) 2]
    else []) ++ [Call_displayMessage "pause" 50]).
Proof. intros Hst. unfold loop. rewrite Hst. reflexivity. Qed.

Lemma filter_relay_display (m : machine) :
  filter is_relay_write
    (if negb (inMessage m)
     then [Call_displayTime (to_uint16 (minutes m * 100 + seconds m)) 2]
     else []) = [].
Proof. destruct (inMessage m); reflexivity. Qed.

(** X14: a long press while paused abandons the run: the next pass
    switches the relay off (the only write to the relay on the way), and
    the pass after it is back in S_IDLE with the set point untouched and
    the remaining time restored to five seconds per unit of it. *)
Theorem long_press_returns_to_setPoint (ins : list input) (t : Z) (r : dir_t)
  (i2 i3 : input) :
  let m := run power_on ins in
  state m = S_PAUSE ->
  let abort := [mkInput t r KS_LONGPRESS; i2; i3] in
  let m' := run m abort in
  state m' = S_IDLE /\
  relay m' = LOW /\
  setPoint m' = setPoint m /\
  seconds_left m' = 5 * setPoint m /\
  filter is_relay_write (run_actions m abort) = [Call_digitalWrite OUTPUT_PIN LOW].
Proof.
  cbv zeta. intros Hst.
  destruct (reachable_inv ins) as [Hsp _ _ _ _].
  set (m := run power_on ins) in *. clearbody m.
  cbn [run run_actions]. unfold step.
  rewrite !(loop_S_PAUSE_long m t r Hst). fields.
  set (m1 := mkMachine S_END _ _ _ _ _ _).
  rewrite !(loop_S_END m1 i2 eq_refl). fields.
  set (m2 := mkMachine S_INIT _ _ _ _ _ _).
  assert (H3 : fst (loop m2 i3) = step m2 i3) by reflexivity.
  rewrite !H3, (step_S_INIT m2 i3 eq_refl Hsp). fields.
  repeat split.
  - unfold seconds_left. fields. apply conversion_total.
  - rewrite !filter_app, filter_relay_display. unfold loop. reflexivity.
Qed.

Lemma long_press_returns_to_setPoint_witness :
  let m := run power_on
             [quiet 0; turn_cw 0; quiet 0; press 0; quiet 100; quiet 1100;
              press 1200] in
  let m' := run m [mkInput 9000 DIR_NONE KS_LONGPRESS; quiet 9001; quiet 11001] in
  (state m = S_PAUSE /\ seconds_left m = 4) /\
  state m' = S_IDLE /\ relay m' = LOW /\ setPoint m' = 1 /\ seconds_left m' = 5.
Proof.
  cbv zeta. split; [split; reflexivity|].
  destruct (long_press_returns_to_setPoint
              [quiet 0; turn_cw 0; quiet 0; press 0; quiet 100; quiet 1100;
               press 1200]
              9000 DIR_NONE (quiet 9001) (quiet 11001)) as (H1 & H2 & H3 & H4 & _).
  - reflexivity.
  - split; [exact H1|]. split; [exact H2|]. split; [exact H3 | exact H4].
Defined.

Lemma relay_writes_app (a b : list action) :
  relay_writes (a ++ b) = relay_writes a ++ relay_writes b.
Proof.
  induction a as [|x a IH]; [reflexivity|].
  cbn [app relay_writes]. destruct x as [v d|p d|pin l]; try exact IH.
  destruct (pin =? OUTPUT_PIN); cbn [app]; now rewrite IH.
Qed.

Lemma pass_relay (m : machine) (i : input) :
  relay_writes (snd (loop m i)) =
    match state m with
    | S_START => [HIGH]
    | S_END => [LOW]
    | _ => []
    end /\
  relay (step m i) =
    match state m with
    | S_START => HIGH
    | S_END => LOW
    | _ => relay m
    end.
Proof.
  unfold step, loop, case_S_START, case_S_PAUSE, case_S_END.
  destruct (state m) eqn:Hst; fields;
    rewrite relay_writes_app;
    (assert (Hd : relay_writes
                    (if negb (inMessage m)
                     then [Call_displayTime (to_uint16 (minutes m * 100 + seconds m)) 2]
                     else []) = []) by (destruct (inMessage m); reflexivity));
    rewrite Hd; split; try reflexivity.
  - unfold case_S_INIT. fields.
    match goal with |- context [if ?c then _ else _] => destruct c end;
      reflexivity.
  - unfold case_S_IDLE.
    destruct (re i);
      repeat match goal with
        | |- context [?a <? ?b] => destruct (a <? b)
        | |- context [?a >? ?b] => destruct (a >? b)
        end; fields; destruct (sw i); fields;
      repeat match goal with
        | |- context [?a =? ?b] => destruct (a =? b)
        end; reflexivity.
  - unfold case_S_RUNNING.
    destruct (second_elapsed i m);
      repeat match goal with
        | |- context [if ?c then _ else _] => destruct c; fields
        end; destruct (sw i); reflexivity.
  - destruct (sw i); reflexivity.
Qed.

Lemma relay_alternates_from (ins : list input) (m : machine) :
  inv m ->
  alternates (relay m) (relay_writes (run_actions m ins)) = true.
Proof.
  revert m. induction ins as [|i ins IH]; intros m Hm; [reflexivity|].
  cbn [run_actions]. rewrite relay_writes_app.
  destruct (pass_relay m i) as [Hw Hr].
  pose proof (IH (step m i) (step_inv m i Hm)) as Hnext.
  rewrite Hr in Hnext. rewrite Hw.
  destruct Hm as [_ _ _ _ Hrel].
  destruct (state m); cbn [app alternates]; rewrite ?Hrel; cbn;
    try exact Hnext; rewrite Hrel in Hnext; exact Hnext.
Qed.

(** X16: over any sequence of inputs from power-on, the levels written to
    the relay pin alternate, the first being HIGH: the relay is never
    switched on twice without being switched off in between, nor off
    twice. *)
Theorem relay_writes_alternate (ins : list input) :
  alternates LOW (relay_writes (run_actions power_on ins)) = true.
Proof. exact (relay_alternates_from ins power_on power_on_inv). Qed.

(** X17: with the set point at 0, in S_IDLE or S_INIT, no sequence of
    passes without a clockwise step arms the timer, however often the
    button is pressed: the state stays in S_IDLE or S_INIT, the set point
    stays 0 (a counter-clockwise step does not wrap it), and the relay is
    never written. *)
Theorem zero_setPoint_is_never_armed (m : machine) (ins : list input) :
  state m = S_IDLE \/ state m = S_INIT ->
  setPoint m = 0 ->
  Forall (fun i => re i <> DIR_CW) ins ->
  let m' := run m ins in
  (state m' = S_IDLE \/ state m' = S_INIT) /\
  setPoint m' = 0 /\
  relay m' = relay m /\
  relay_writes (run_actions m ins) = [].
Proof.
  intros Hst Hsp Hall. cbv zeta. revert m Hst Hsp.
  induction Hall as [|i ins Hi _ IH]; intros m Hst Hsp.
  - cbn. auto.
  - cbn [run run_actions]. rewrite relay_writes_app.
    destruct (pass_relay m i) as [Hw Hr].
    assert (Hnext : (state (step m i) = S_IDLE \/ state (step m i) = S_INIT) /\
                    setPoint (step m i) = 0).
    { unfold step, loop. destruct Hst as [Hst|Hst]; rewrite Hst; fields.
      - unfold case_S_IDLE. rewrite Hsp.
        destruct (re i); try congruence; cbn [Z.gtb Z.compare];
          fields; destruct (sw i); fields; rewrite ?Hsp; cbn [Z.eqb];
          unfold set_state; fields; rewrite ?Hst; auto.
      - unfold case_S_INIT. fields. rewrite Hsp. cbn. auto. }
    destruct Hnext as [Hst' Hsp'].
    destruct (IH (step m i) Hst' Hsp') as (H1 & H2 & H3 & H4).
    rewrite Hw, H4, H3, Hr.
    destruct Hst as [Hst|Hst]; rewrite Hst; auto.
Qed.

Lemma zero_setPoint_is_never_armed_witness :
  let m' := run power_on [press 0; press 1; mkInput 2 DIR_CCW KS_PRESS;
                          press 3; mkInput 4 DIR_NONE KS_LONGPRESS] in
  (state m' = S_IDLE \/ state m' = S_INIT) /\ setPoint m' = 0 /\
  relay m' = LOW.
Proof.
  cbv zeta.
  destruct (zero_setPoint_is_never_armed power_on
              [press 0; press 1; mkInput 2 DIR_CCW KS_PRESS; press 3;
               mkInput 4 DIR_NONE KS_LONGPRESS]) as (H1 & H2 & H3 & _).
  - right. reflexivity.
  - reflexivity.
  - repeat constructor; discriminate.
  - split; [exact H1|]. split; [exact H2 | exact H3].
Defined.

Lemma minutes_seconds_digits (mi se : Z) :
  0 <= mi <= 99 -> 0 <= se <= 59 ->
  let v := mi * 100 + se in
  v / 1000 mod 10 = mi / 10 /\ v / 100 mod 10 = mi mod 10 /\
  v / 10 mod 10 = se / 10 /\ v mod 10 = se mod 10.
Proof.
  intros Hmi Hse.
  assert (Hall :
    forallb (fun a => forallb (fun b =>
      let v := a * 100 + b in
      (v / 1000 mod 10 =? a / 10) && (v / 100 mod 10 =? a mod 10) &&
      (v / 10 mod 10 =? b / 10) && (v mod 10 =? b mod 10))
      (bytes_upto 60)) (bytes_upto 100) = true) by (vm_compute; reflexivity).
  rewrite forallb_forall in Hall.
  specialize (Hall mi (bytes_upto_In 100 mi ltac:(lia))).
  rewrite forallb_forall in Hall.
  specialize (Hall se (bytes_upto_In 60 se ltac:(lia))).
  cbv zeta in Hall. rewrite !andb_true_iff, !Z.eqb_eq in Hall.
  cbv zeta. tauto.
Qed.

(** X18: outside a message every pass from power-on first calls
    [displayTime] with minutes*100 + seconds and decimal-point index 2, and
    that call leaves on the panel, from the left, the tens and units of the
    minutes, the decimal point, and the tens and units of the seconds: the
    panel reads MM.SS of the remaining time. *)
Theorem panel_reads_minutes_seconds (ins : list input) (i : input) (s : pins) :
  let m := run power_on ins in
  inMessage m = false ->
  exists v rest,
    snd (loop m i) = Call_displayTime v 2 :: rest /\
    let shown := left_to_right (lit_digits s (displayTime updateSegments v 2)) in
    map digit_shown shown =
      [Some (minutes m / 10); Some (minutes m mod 10);
       Some (seconds m / 10); Some (seconds m mod 10)] /\
    map decimal_point shown = [false; true; false; false].
Proof.
  cbv zeta. intros Him.
  pose proof (reachable_inv ins) as Hinv.
  destruct (loop_shows_remaining_time _ i Hinv Him) as [rest Hrest].
  destruct Hinv as [_ Hmi Hse _ _]. unfold TIME_MAX_MINUTES in Hmi.
  exists (minutes (run power_on ins) * 100 + seconds (run power_on ins)), rest.
  split; [exact Hrest|].
  destruct (displayTime_digits s
              (minutes (run power_on ins) * 100 + seconds (run power_on ins)) 2)
    as [Hd Hp].
  cbv zeta in Hd, Hp. rewrite Hd, Hp.
  rewrite to_uint16_small by lia.
  destruct (minutes_seconds_digits _ _ Hmi Hse) as (H3 & H2 & H1 & H0).
  cbv zeta in H3, H2, H1, H0. rewrite H3, H2, H1, H0.
  split; reflexivity.
Qed.

Lemma panel_reads_minutes_seconds_witness :
  let m := run power_on [quiet 0; turn_cw 0; quiet 0] in
  inMessage m = false /\
  exists v rest,
    snd (loop m (quiet 0)) = Call_displayTime v 2 :: rest /\
    map digit_shown
      (left_to_right (lit_digits pins_after_setup_writes (displayTime updateSegments v 2))) =
    [Some 0; Some 0; Some 0; Some 5].
Proof.
  cbv zeta. split; [reflexivity|].
  destruct (panel_reads_minutes_seconds [quiet 0; turn_cw 0; quiet 0] (quiet 0)
              pins_after_setup_writes eq_refl) as (v & rest & Hcall & Hd & _).
  exists v, rest. split; [exact Hcall | exact Hd].
Defined.

(** A pass whose tick is due, no button pressed, above 0:00. *)
Lemma catch_up_after (q : nat) (m : machine) (ts d : Z) :
  state m = S_RUNNING ->
  0 <= minutes m <= 99 -> 0 <= seconds m <= 59 ->
  timeStart m = to_uint32 ts ->
  1000 * Z.of_nat q <= d < 4294967296 ->
  Z.of_nat q <= seconds_left m ->
  let m' := run m (repeat (quiet (ts + d)) q) in
  state m' = S_RUNNING /\
  seconds_left m' = seconds_left m - Z.of_nat q /\
  0 <= minutes m' <= 99 /\ 0 <= seconds m' <= 59 /\
  timeStart m' = to_uint32 (ts + 1000 * Z.of_nat q).
Proof.
  revert m ts d. induction q as [|q IH]; intros m ts d Hst Hmi Hse Hts Hd Hq.
  - cbv zeta. cbn [repeat run]. rewrite Z.add_0_r by lia.
    repeat split; try assumption; lia.
  - cbv zeta. cbn [repeat run].
    assert (Hdue : second_elapsed (quiet (ts + d)) m = true).
    { unfold second_elapsed, millis, quiet. fields.
      rewrite Hts, to_uint32_elapsed by lia.
      destruct (Z.geb_spec d 1000); [reflexivity | lia]. }
    destruct (tick_counts_down m (quiet (ts + d)) Hst Hmi Hse Hdue
                ltac:(discriminate) ltac:(lia))
      as (Hst' & Hleft' & Hmi' & Hse' & Hts').
    replace (ts + d) with (ts + 1000 + (d - 1000)) by lia.
    destruct (IH (step m (quiet (ts + d))) (ts + 1000) (d - 1000) Hst' Hmi' Hse')
      as (H1 & H2 & H3 & H4 & H5).
    + rewrite Hts', Hts. apply to_uint32_add_l.
    + lia.
    + lia.
    + replace (ts + 1000 + (d - 1000)) with (ts + d) in * by lia.
      repeat split; try assumption; try lia.
      rewrite H5. f_equal. lia.
Qed.

(** X19: a delay is caught up, one second per pass.  When the loop comes
    back to S_RUNNING d milliseconds after the last tick instant, with q
    whole seconds in d and at least q seconds remaining, the next q passes
    each take one second off, even if they all read the same instant, and a
    pass after them that still reads less than (q+1)*1000 ms takes none:
    no elapsed second is dropped and none is counted twice. *)
Theorem delayed_seconds_are_caught_up (q : nat) (m : machine) (ts d : Z) :
  state m = S_RUNNING ->
  0 <= minutes m <= 99 -> 0 <= seconds m <= 59 ->
  timeStart m = to_uint32 ts ->
  1000 * Z.of_nat q <= d < 1000 * Z.of_nat q + 1000 ->
  d < 4294967296 ->
  Z.of_nat q <= seconds_left m ->
  let m' := run m (repeat (quiet (ts + d)) q) in
  state m' = S_RUNNING /\
  seconds_left m' = seconds_left m - Z.of_nat q /\
  timeStart m' = to_uint32 (ts + 1000 * Z.of_nat q) /\
  step m' (quiet (ts + d)) = m'.
Proof.
  intros Hst Hmi Hse Hts Hd Hd32 Hq. cbv zeta.
  destruct (catch_up_after q m ts d Hst Hmi Hse Hts ltac:(lia) Hq)
    as (H1 & H2 & H3 & H4 & H5).
  split; [exact H1|]. split; [exact H2|]. split; [exact H5|].
  set (m' := run m (repeat (quiet (ts + d)) q)) in *. clearbody m'.
  unfold step, loop. rewrite H1. fields. unfold case_S_RUNNING.
  assert (Hno : second_elapsed (quiet (ts + d)) m' = false).
  { unfold second_elapsed, millis, quiet. fields. rewrite H5.
    replace (ts + d) with (ts + 1000 * Z.of_nat q + (d - 1000 * Z.of_nat q)) by lia.
    rewrite to_uint32_elapsed by lia.
    destruct (Z.geb_spec (d - 1000 * Z.of_nat q) 1000); [lia | reflexivity]. }
  rewrite Hno. reflexivity.
Qed.

Lemma delayed_seconds_are_caught_up_witness :
  let m := mkMachine S_RUNNING 12 1 1 4294966000 false HIGH in
  let m' := run m (repeat (quiet 2204) 3) in
  seconds_left m' = 58 /\ timeStart m' = 1704 /\ step m' (quiet 2204) = m'.
Proof.
  cbv zeta.
  destruct (delayed_seconds_are_caught_up 3
              (mkMachine S_RUNNING 12 1 1 4294966000 false HIGH)
              4294966000 3500) as (_ & H2 & H3 & H4).
  - reflexivity.
  - cbn. lia.
  - cbn. lia.
  - reflexivity.
  - lia.
  - lia.
  - cbn. lia.
  - split; [exact H2|]. split; [exact H3 | exact H4].
Defined.

(** * The rendering order *)

Lemma pins_after_setup_writes_spec (q : Z) :
  replay (fun _ => LOW) setup_writes q = pins_after_setup_writes q.
Proof.
  unfold pins_after_setup_writes, setup_writes, replay.
  cbn [digitPin segmentPin map app fold_left apply_event existsb].
  repeat match goal with
    | |- context [q =? ?p] => destruct (Z.eqb_spec q p); [subst q; reflexivity|]
    end.
  reflexivity.
Qed.

Lemma low_bit_test (y : Z) : negb (Z.land y 1 =? 0) = Z.testbit y 0.
Proof.
  rewrite Z.bit0_odd. change 1 with (Z.ones 1) at 1.
  rewrite Z.land_ones by lia. change (2 ^ 1) with 2.
  rewrite Zmod_odd. destruct (Z.odd y); reflexivity.
Qed.

Lemma to_uint8_bit (v : Z) (k : Z) :
  0 <= k < 8 -> Z.testbit (to_uint8 v) k = Z.testbit v k.
Proof.
  intros Hk. unfold to_uint8. change 256 with (2 ^ 8).
  apply Z.mod_pow2_bits_low. lia.
Qed.

(** [updateSegments] makes exactly the eight writes of the contract. *)
Lemma updateSegments_segment_writes (v : Z) :
  updateSegments v = segment_writes v.
Proof.
  unfold updateSegments, segment_writes.
  cbn [segmentPin updateSegments_from seq map nth].
  rewrite !low_bit_test, !Z.shiftr_spec by lia.
  cbn [Z.add Pos.add Pos.succ Z.of_nat Pos.of_succ_nat].
  rewrite !to_uint8_bit by lia. reflexivity.
Qed.

Lemma block_blank_load_enable (iv : nat * Z) :
  block updateSegments iv = blank_load_enable iv.
Proof.
  unfold block, blank_load_enable, all_digits_off.
  now rewrite updateSegments_segment_writes.
Qed.

Lemma blocks_blank_load_enable (l : list (nat * Z)) :
  flat_map (block updateSegments) l = flat_map blank_load_enable l.
Proof.
  induction l as [|iv l IH]; [reflexivity|].
  cbn [flat_map]. now rewrite IH, block_blank_load_enable.
Qed.

(** The patterns of a frame are those of the first four characters. *)
Lemma frame_patterns_message (flash : Z -> Z) (p : string) :
  frame_patterns flash 4 p =
  let cp := message_patterns flash p in
  [(3%nat, nth 0 cp 0); (2%nat, nth 1 cp 0); (1%nat, nth 2 cp 0);
   (0%nat, nth 3 cp 0)].
Proof.
  cbv zeta.
  destruct p as [|c1 p]; [reflexivity|].
  cbn [frame_patterns message_patterns].
  destruct (Ascii.eqb c1 Ascii.zero); [reflexivity|].
  destruct p as [|c2 p]; [reflexivity|].
  cbn [frame_patterns message_patterns].
  destruct (Ascii.eqb c2 Ascii.zero); [reflexivity|].
  destruct p as [|c3 p]; [reflexivity|].
  cbn [frame_patterns message_patterns].
  destruct (Ascii.eqb c3 Ascii.zero); [reflexivity|].
  destruct p as [|c4 p]; [reflexivity|].
  cbn [frame_patterns message_patterns].
  destruct (Ascii.eqb c4 Ascii.zero); reflexivity.
Qed.

Lemma displayMessage_frame_message (flash : Z -> Z) (p : string) :
  displayMessage_frame updateSegments flash (List.length digitPin) p =
  message_frame flash p.
Proof.
  rewrite displayMessage_frame_patterns. cbn [List.length digitPin].
  rewrite frame_patterns_message. apply blocks_blank_load_enable.
Qed.

Lemma displayTime_steps (val decDigit : Z) :
  let v := to_uint16 val in
  let d := to_uint8 decDigit in
  displayTime updateSegments val decDigit =
  flat_map blank_load_enable
    [(0%nat, digit_pattern (v mod 10) (d =? 0));
     (1%nat, digit_pattern (v / 10 mod 10) (d =? 1));
     (2%nat, digit_pattern (v / 100 mod 10) (d =? 2));
     (3%nat, digit_pattern (v / 1000 mod 10) (d =? 3))].
Proof.
  cbv zeta. unfold displayTime.
  rewrite displayTime_from_patterns, blocks_blank_load_enable.
  generalize (to_uint16 val) as v, (to_uint8 decDigit) as d. intros v d.
  cbn [List.length digitPin displayTime_patterns].
  assert (Hr : forall x, to_uint8 (x mod 10) = x mod 10).
  { intros x. pose proof (Z.mod_pos_bound x 10 ltac:(lia)).
    unfold to_uint8. apply Z.mod_small. lia. }
  rewrite !Hr, !Z.div_div by lia. reflexivity.
Qed.

Lemma concat_frames_blocks (frame : list event) (l : list (nat * Z)) (k : nat) :
  frame = flat_map (block updateSegments) l ->
  concat (repeat frame k) =
  flat_map (block updateSegments) (concat (repeat l k)).
Proof.
  intros ->. induction k as [|k IH]; [reflexivity|].
  cbn [repeat concat]. now rewrite flat_map_app, IH.
Qed.

Lemma displayMessage_until (commit : Z -> list event) (flash : Z -> Z)
  (t0 : Z) (early : list Z) (d : Z) (rest : list Z) (pMesg : string)
  (duration : Z) :
  Forall (fun x => 0 <= x < to_uint16 duration) early ->
  to_uint16 duration <= d < 4294967296 ->
  displayMessage commit flash
    (t0 :: map (fun x => t0 + x) (early ++ d :: rest)) pMesg duration =
  Some (concat (repeat (displayMessage_frame commit flash (List.length digitPin) pMesg)
                       (List.length early))).
Proof.
  intros Hearly Hd. unfold displayMessage.
  assert (Hdur : 0 <= to_uint16 duration < 65536)
    by (unfold to_uint16; apply Z.mod_pos_bound; lia).
  induction Hearly as [|x early Hx _ IH];
    cbn [app map List.length repeat concat];
    rewrite displayMessage_while_step, to_uint32_elapsed by lia.
  - destruct (Z.ltb_spec d (to_uint16 duration)); [lia | reflexivity].
  - destruct (Z.ltb_spec x (to_uint16 duration)); [|lia].
    cbn [app map] in IH. now rewrite IH.
Qed.

(** C9: [displayTime] makes, for the digits 0, 1, 2, 3 in turn, and
    [displayMessage], for the digits 3, 2, 1, 0 of every frame it shows
    (one frame per reading of the clock before [duration] has elapsed),
    exactly the writes "all four digit-select lines DIGIT_OFF, the eight
    segment lines with the pattern of that digit, that digit-select line
    DIGIT_ON", in this order and nothing else.  Started with at most one
    digit enabled, at no point of either trace are two digit-select lines
    enabled, every segment write happens while all of them are disabled,
    and at most one is enabled at the end. *)
Theorem blank_before_load (flash : Z -> Z) (t0 : Z) (early : list Z) (d : Z)
  (rest : list Z) (pMesg : string) (val decDigit duration : Z) (s : pins) :
  (enabled_digits s <= 1)%nat ->
  Forall (fun x => 0 <= x < to_uint16 duration) early ->
  to_uint16 duration <= d < 4294967296 ->
  let v := to_uint16 val in
  let dp := to_uint8 decDigit in
  let shown := displayTime updateSegments val decDigit in
  let message := concat (repeat (message_frame flash pMesg) (List.length early)) in
  (shown =
     flat_map blank_load_enable
       [(0%nat, digit_pattern (v mod 10) (dp =? 0));
        (1%nat, digit_pattern (v / 10 mod 10) (dp =? 1));
        (2%nat, digit_pattern (v / 100 mod 10) (dp =? 2));
        (3%nat, digit_pattern (v / 1000 mod 10) (dp =? 3))] /\
   multiplex_ok s shown = true /\
   (enabled_digits (replay s shown) <= 1)%nat) /\
  (displayMessage updateSegments flash
     (t0 :: map (fun x => t0 + x) (early ++ d :: rest)) pMesg duration =
     Some message /\
   multiplex_ok s message = true /\
   (enabled_digits (replay s message) <= 1)%nat).
Proof.
  intros Hs Hearly Hd. cbv zeta. split.
  - split; [apply displayTime_steps|].
    unfold displayTime. rewrite displayTime_from_patterns.
    apply (blocks_ok updateSegments updateSegments_keeps_digits); [|exact Hs].
    cbn. repeat constructor; cbn; lia.
  - pose proof (displayMessage_until updateSegments flash t0 early d rest pMesg
                  duration Hearly Hd) as Hret.
    rewrite displayMessage_frame_message in Hret.
    split; [exact Hret|].
    assert (Hfr : message_frame flash pMesg =
                  flat_map (block updateSegments) (frame_patterns flash 4 pMesg)).
    { unfold message_frame. rewrite frame_patterns_message.
      symmetry. apply blocks_blank_load_enable. }
    rewrite (concat_frames_blocks _ _ (List.length early) Hfr).
    apply (blocks_ok updateSegments updateSegments_keeps_digits); [|exact Hs].
    apply Forall_forall. intros iv Hin.
    apply in_concat in Hin. destruct Hin as (f & Hf & Hin).
    apply repeat_spec in Hf. subst f.
    rewrite frame_patterns_message in Hin. cbn in Hin.
    repeat (destruct Hin as [<-|Hin]; [cbn; lia|]). destruct Hin.
Qed.

(** 1205 with the point at index 2, then "end" for 50 ms read across the
    rollover of the counter: three frames. *)
Lemma blank_before_load_witness :
  let s := replay pins_after_setup_writes (block updateSegments (O, 63%Z)) in
  (enabled_digits s <= 1)%nat /\
  multiplex_ok s (displayTime updateSegments 1205 2) = true /\
  displayMessage updateSegments (fun _ => 0)
    [4294967290; 4294967290; 4294967295; 24; 44; 99] "end" 50 =
  Some (message_frame (fun _ => 0) "end" ++ message_frame (fun _ => 0) "end" ++
        message_frame (fun _ => 0) "end" ++ []) /\
  multiplex_ok s (message_frame (fun _ => 0) "end" ++
                  message_frame (fun _ => 0) "end" ++
                  message_frame (fun _ => 0) "end" ++ []) = true.
Proof.
  cbv zeta.
  assert (Hs : (enabled_digits
                  (replay pins_after_setup_writes
                     (block updateSegments (O, 63%Z))) <= 1)%nat)
    by (vm_compute; apply le_n).
  destruct (blank_before_load (fun _ => 0) 4294967290 [0; 5; 30] 50 [105]
              "end" 1205 2 50
              (replay pins_after_setup_writes (block updateSegments (O, 63%Z))))
    as ((_ & Ht & _) & (Hm & Hmok & _)).
  - exact Hs.
  - repeat constructor; vm_compute; congruence.
  - vm_compute. split; congruence.
  - split; [exact Hs|]. split; [exact Ht|]. split; [exact Hm | exact Hmok].
Defined.
